(** * git-pkgs/demo: the markdown slide generator (generate-slides.js)

    A shallow embedding of [escapeHtml], [parseMarkdown], [generateHTML] and
    [generateSlides], and the properties of the parser and the renderer that
    the specification states about them.

    JavaScript strings are sequences of UTF-16 code units; the source relies
    on that (the em-dash U+2014 is one code unit for [includes], [split] and
    the class [[^—]]; [\s] and [trim] know the Unicode white space), so a
    string is a list of code units here. *)

From Stdlib Require Import String Ascii.
From Stdlib Require Import List NArith ZArith Bool Lia.
Import ListNotations.

(** ** JavaScript strings and the built-ins the source calls *)

Module JS.

(** A code unit and a string. *)
Abbreviation char := N (only parsing).
Abbreviation str := (list N) (only parsing).

(** A source literal made of ASCII characters only. *)
Definition lit (s : string) : str :=
  List.map N_of_ascii (list_ascii_of_string s).

(** A source literal that holds double quotes: every [~] of the argument
    stands for the code unit 34 (no literal of the source holds a tilde). *)
Definition tpl (s : string) : str :=
  List.map (fun a => let c := N_of_ascii a in if N.eqb c 126 then 34%N else c)
           (list_ascii_of_string s).

Arguments lit s%_string.
Arguments tpl s%_string.

Definition newline : char := 10%N.
Definition emdash : char := 8212%N.      (* U+2014 *)
Definition checkmark : char := 10003%N.  (* U+2713 *)
Definition backtick : char := 96%N.

Fixpoint eqs (a b : str) : bool :=
  match a, b with
  | [], [] => true
  | x :: a', y :: b' => N.eqb x y && eqs a' b'
  | _, _ => false
  end.

(** [s.startsWith(p)] *)
Fixpoint startsWith (p s : str) : bool :=
  match p, s with
  | [], _ => true
  | _ :: _, [] => false
  | x :: p', y :: s' => N.eqb x y && startsWith p' s'
  end.

(** [s.includes(p)] *)
Fixpoint includes (p s : str) : bool :=
  startsWith p s ||
  match s with
  | [] => false
  | _ :: s' => includes p s'
  end.

(** [s.indexOf(p)]: the first position where [p] occurs, -1 when none. *)
Fixpoint indexOf (p s : str) : Z :=
  if startsWith p s then 0%Z
  else match s with
       | [] => (-1)%Z
       | _ :: s' => let i := indexOf p s' in
                    if (i <? 0)%Z then (-1)%Z else (i + 1)%Z
       end.

(** [s.substring(a)] and [s.substring(a, b)]: the arguments are clamped to
    [0 .. s.length] and swapped when [a > b]. *)
Definition clamp (s : str) (i : Z) : nat :=
  Nat.min (Z.to_nat i) (length s).

Definition substring (s : str) (a b : Z) : str :=
  let i := clamp s a in
  let j := clamp s b in
  firstn (Nat.max i j - Nat.min i j) (skipn (Nat.min i j) s).

Definition substringFrom (s : str) (a : Z) : str :=
  skipn (clamp s a) s.

(** White space of [\s] and of [trim]: WhiteSpace and LineTerminator. *)
Definition isSpace (c : char) : bool :=
  ((9 <=? c) && (c <=? 13) || (c =? 32) || (c =? 160) || (c =? 5760)
   || (8192 <=? c) && (c <=? 8202) || (c =? 8232) || (c =? 8233)
   || (c =? 8239) || (c =? 8287) || (c =? 12288) || (c =? 65279))%N.

(** [\d] *)
Definition isDigit (c : char) : bool := ((48 <=? c) && (c <=? 57))%N.

Fixpoint dropWhile (p : char -> bool) (s : str) : str :=
  match s with
  | [] => []
  | c :: s' => if p c then dropWhile p s' else s
  end.

Fixpoint takeWhile (p : char -> bool) (s : str) : str :=
  match s with
  | [] => []
  | c :: s' => if p c then c :: takeWhile p s' else []
  end.

Definition trimStart (s : str) : str := dropWhile isSpace s.
Definition trimEnd (s : str) : str := rev (dropWhile isSpace (rev s)).

(** [s.trim()] *)
Definition trim (s : str) : str := trimEnd (trimStart s).

(** [s.split(sep)] for a separator of one code unit. *)
Fixpoint split (sep : char) (s : str) : list str :=
  match s with
  | [] => [[]]
  | c :: s' =>
      if N.eqb c sep then [] :: split sep s'
      else match split sep s' with
           | [] => [[c]]
           | w :: ws => (c :: w) :: ws
           end
  end.

(** [a.join(sep)] *)
Fixpoint join (sep : str) (a : list str) : str :=
  match a with
  | [] => []
  | [w] => w
  | w :: ws => w ++ sep ++ join sep ws
  end.

(** A non-negative integer in a template literal: its decimal digits. *)
Fixpoint digitsN (fuel : nat) (n : N) (acc : str) : str :=
  match fuel with
  | O => acc
  | S fuel' =>
      let acc' := (48 + n mod 10)%N :: acc in
      if (n <? 10)%N then acc' else digitsN fuel' (n / 10)%N acc'
  end.

Definition numToString (n : N) : str :=
  digitsN (S (N.to_nat (N.log2 n))) n [].

(** [s.replace(re, ...)] with a global regular expression whose matches are
    never empty: scan from the left; where the expression matches [n] code
    units, emit the replacement and resume behind the match, else copy the
    code unit.  [m] gives, at a position, the length of the match and the
    replacement. *)
Fixpoint replaceAll (m : str -> option (nat * str)) (skip : nat) (s : str) : str :=
  match s with
  | [] => []
  | c :: s' =>
      match skip with
      | S k => replaceAll m k s'
      | O =>
          match m s with
          | Some (n, r) => r ++ replaceAll m (Nat.pred n) s'
          | None => c :: replaceAll m 0 s'
          end
      end
  end.

(** The first match of a regular expression without [^]: the leftmost
    position where the matcher succeeds. *)
Fixpoint firstMatch {A : Type} (m : str -> option A) (s : str) : option A :=
  match m s with
  | Some r => Some r
  | None => match s with
            | [] => None
            | _ :: s' => firstMatch m s'
            end
  end.

End JS.

Import JS.

(** ** The slide model *)

(** [slide.type] *)
Inductive SlideType := TContent | TTitle | TSection.

(** The objects pushed on [slide.content], by their [type] field. *)
Inductive Block :=
| Subtitle (text : str)
| ListItem (text : str)
| Stat (key value : str)
| Image (alt src : str)
| Code (language text : str)
| Text (text : str).

(** A slide object; [title] is [None] where the object has no such field. *)
Record Slide := mkSlide {
  type : SlideType;
  title : option str;
  content : list Block
}.

(** Truthiness of a string, and of a field that may be undefined. *)
Definition truthy (s : str) : bool :=
  match s with [] => false | _ :: _ => true end.

Definition truthyOpt (o : option str) : bool :=
  match o with Some s => truthy s | None => false end.

(** ** parseMarkdown *)

Module Parser.

(** The variables of the loop of [parseMarkdown]. *)
Record PState := mkPState {
  slides : list Slide;
  currentSlide : option Slide;
  inCodeBlock : bool;
  codeBlockContent : list str;
  codeBlockLang : str
}.

Definition init : PState :=
  {| slides := []; currentSlide := None; inCodeBlock := false;
     codeBlockContent := []; codeBlockLang := [] |}.

Definition fence : str := [backtick; backtick; backtick].

(** [if (!currentSlide) currentSlide = { type: 'content', content: [] };
     currentSlide.content.push(b)] *)
Definition pushBlock (cur : option Slide) (b : Block) : option Slide :=
  let s := match cur with
           | Some s => s
           | None => {| type := TContent; title := None; content := [] |}
           end in
  Some {| type := type s; title := title s; content := content s ++ [b] |}.

(** [if (currentSlide && currentSlide.content.length > 0) slides.push(currentSlide)] *)
Definition pushSlide (sl : list Slide) (cur : option Slide) : list Slide :=
  match cur with
  | Some s => if (0 <? length (content s))%nat then sl ++ [s] else sl
  | None => sl
  end.

(** [/^#\s+/], [/^##\s+/] and [/^###\s+/] on a line: the hashes, then one or
    more white space.  The result is the line behind the match, which is what
    [line.replace(re, '')] leaves. *)
Definition matchHeader (hashes : str) (line : str) : option str :=
  if startsWith hashes line then
    match skipn (length hashes) line with
    | c :: r => if isSpace c then Some (dropWhile isSpace r) else None
    | [] => None
    end
  else None.

(** [/[\d,]+/] matches somewhere in [s]. *)
Definition hasDigitOrComma (s : str) : bool :=
  existsb (fun c => isDigit c || (c =? 44)%N) s.

(** The key-value branch: the block it pushes, if it pushes one. *)
Definition statOf (inCode : bool) (line : str) : option Block :=
  if includes (lit ":") line && negb (startsWith (lit "http") line) && negb inCode then
    let colonIndex := indexOf (lit ":") line in
    let key := trim (substring line 0 colonIndex) in
    let value := trim (substringFrom line (colonIndex + 1)) in
    if truthy key && truthy value && negb (includes (lit " ") key)
       && hasDigitOrComma value
    then Some (Stat key value)
    else None
  else None.

(** The image expression at one position: [![], a run (maybe empty) of code
    units other than []], then [](], a non-empty run of code units other than
    [)], then [)]; both runs are greedy and cannot give back, because what
    follows each is the code unit it excludes.  The result is the two groups. *)
Definition imageAt (s : str) : option (str * str) :=
  if startsWith (lit "![") s then
    let r := skipn 2 s in
    let alt := takeWhile (fun c => negb (c =? 93)%N) r in
    let r1 := skipn (length alt) r in
    if startsWith (lit "](") r1 then
      let r2 := skipn 2 r1 in
      let src := takeWhile (fun c => negb (c =? 41)%N) r2 in
      if truthy src && startsWith (lit ")") (skipn (length src) r2)
      then Some (alt, src)
      else None
    else None
  else None.

Definition matchImage (line : str) : option (str * str) :=
  firstMatch imageAt line.

(** An assignment to [slides] and [currentSlide], and a push on the content of
    the current slide; the code-block variables stay. *)
Definition setSlides (st : PState) (sl : list Slide) (cur : option Slide) : PState :=
  {| slides := sl; currentSlide := cur; inCodeBlock := inCodeBlock st;
     codeBlockContent := codeBlockContent st;
     codeBlockLang := codeBlockLang st |}.

Definition addBlock (st : PState) (b : Block) : PState :=
  setSlides st (slides st) (pushBlock (currentSlide st) b).

(** The body of the loop over the lines. *)
Definition step (st : PState) (line : str) : PState :=
  if startsWith fence line then
    if negb (inCodeBlock st) then
      {| slides := slides st; currentSlide := currentSlide st;
         inCodeBlock := true;
         codeBlockContent := [];
         codeBlockLang := trim (substringFrom line 3) |}
    else
      {| slides := slides st;
         currentSlide :=
           pushBlock (currentSlide st)
             (Code (codeBlockLang st) (join [newline] (codeBlockContent st)));
         inCodeBlock := false;
         codeBlockContent := [];
         codeBlockLang := [] |}
  else if inCodeBlock st then
    {| slides := slides st; currentSlide := currentSlide st;
       inCodeBlock := inCodeBlock st;
       codeBlockContent := codeBlockContent st ++ [line];
       codeBlockLang := codeBlockLang st |}
  else if startsWith (lit "slides:") line || startsWith (lit "Also share with") line then
    st
  else if eqs (trim line) (lit "<hr>") || eqs (trim line) (lit "---") then
    setSlides st (pushSlide (slides st) (currentSlide st)) None
  else
    match matchHeader (lit "#") line with
    | Some r =>
        setSlides st (pushSlide (slides st) (currentSlide st))
          (Some {| type := TTitle; title := Some (trim r); content := [] |})
    | None =>
    match matchHeader (lit "##") line with
    | Some r =>
        setSlides st (pushSlide (slides st) (currentSlide st))
          (Some {| type := TSection; title := Some (trim r); content := [] |})
    | None =>
    match matchHeader (lit "###") line with
    | Some r => addBlock st (Subtitle (trim r))
    | None =>
    if startsWith (lit "- ") line then
      addBlock st (ListItem (trim (substringFrom line 2)))
    else
    match statOf (inCodeBlock st) line with
    | Some b => addBlock st b
    | None =>
    match matchImage line with
    | Some (alt, src) => addBlock st (Image alt src)
    | None =>
    if truthy (trim line) then addBlock st (Text (trim line)) else st
    end end end end end.

(** The loop, then the last slide, then [return slides]. *)
Definition run (ls : list str) (st : PState) : PState := fold_left step ls st.

Definition finish (st : PState) : list Slide :=
  pushSlide (slides st) (currentSlide st).

Definition parseLines (ls : list str) : list Slide := finish (run ls init).

Definition parseMarkdown (content : str) : list Slide :=
  parseLines (split newline content).

End Parser.

Import Parser.

(** ** Exceptions *)

(** What a JavaScript expression of the source can throw: a [TypeError] (a
    property read on [null]) or an error of the file system. *)
Inductive Exn := TypeError | IOError.

Inductive Res (A : Type) : Type :=
| Ok (a : A)
| Throw (e : Exn).

Arguments Ok {A} a.
Arguments Throw {A} e.

Definition bind {A B : Type} (c : Res A) (k : A -> Res B) : Res B :=
  match c with
  | Ok a => k a
  | Throw e => Throw e
  end.

Notation "x <- c ;; k" := (bind c (fun x => k))
  (at level 61, c at next level, right associativity).

(** [a.forEach(f)] where [f] updates [html] and may throw. *)
Fixpoint forEachM {A : Type} (f : str -> A -> Res str) (a : list A) (html : str)
  : Res str :=
  match a with
  | [] => Ok html
  | x :: a' => html' <- f html x ;; forEachM f a' html'
  end.

(** [a.map(f)] where [f] gets the index too and may throw. *)
Fixpoint mapM {A B : Type} (f : A -> nat -> Res B) (a : list A) (index : nat)
  : Res (list B) :=
  match a with
  | [] => Ok []
  | x :: a' => y <- f x index ;; ys <- mapM f a' (S index) ;; Ok (y :: ys)
  end.

(** [re.exec(s)[1]] for a match that may be [null]. *)
Definition group1 (m : option str) : Res str :=
  match m with
  | Some g => Ok g
  | None => Throw TypeError
  end.

(** ** escapeHtml *)

Definition escapeMap : list (char * str) :=
  [ (38%N, lit "&amp;"); (60%N, lit "&lt;"); (62%N, lit "&gt;");
    (34%N, lit "&quot;"); (39%N, lit "&#039;") ].

(** [map[m]]; a key the object lacks reads as [undefined]. *)
Fixpoint lookup (m : list (char * str)) (c : char) : str :=
  match m with
  | [] => lit "undefined"
  | (k, v) :: m' => if (k =? c)%N then v else lookup m' c
  end.

(** The class of the expression: ampersand, less-than, greater-than, double
    quote and single quote. *)
Definition isReserved (c : char) : bool :=
  ((c =? 38) || (c =? 60) || (c =? 62) || (c =? 34) || (c =? 39))%N.

Definition escapeHtml (text : str) : str :=
  replaceAll (fun s => match s with
                       | c :: _ => if isReserved c then Some (1%nat, lookup escapeMap c)
                                   else None
                       | [] => None
                       end) 0 text.

(** ** generateHTML *)

Module Render.

(** The arrays [slide.content.filter(c => c.type === ...)], each with the
    fields its blocks carry. *)
Definition statsOf (c : list Block) : list (str * str) :=
  flat_map (fun b => match b with Stat k v => [(k, v)] | _ => [] end) c.
Definition listItemsOf (c : list Block) : list str :=
  flat_map (fun b => match b with ListItem t => [t] | _ => [] end) c.
Definition textsOf (c : list Block) : list str :=
  flat_map (fun b => match b with Text t => [t] | _ => [] end) c.
Definition subtitlesOf (c : list Block) : list str :=
  flat_map (fun b => match b with Subtitle t => [t] | _ => [] end) c.
Definition imagesOf (c : list Block) : list (str * str) :=
  flat_map (fun b => match b with Image a s => [(a, s)] | _ => [] end) c.
Definition codeBlocksOf (c : list Block) : list (str * str) :=
  flat_map (fun b => match b with Code l t => [(l, t)] | _ => [] end) c.

Definition nl : str := [newline].

(** The percentage expression at one position: an opening parenthesis, a
    non-empty greedy run of digits and dots, a percent sign and a closing
    parenthesis.  The result is group 1, the run with the percent sign. *)
Definition percentAt (s : str) : option str :=
  if startsWith (lit "(") s then
    let r := skipn 1 s in
    let num := takeWhile (fun c => isDigit c || (c =? 46)%N) r in
    if truthy num && startsWith (lit "%)") (skipn (length num) r)
    then Some (num ++ lit "%")
    else None
  else None.

(** [/\[([^\]]+)\]/] at one position: group 1. *)
Definition bracketAt (s : str) : option str :=
  if startsWith (lit "[") s then
    let r := skipn 1 s in
    let g := takeWhile (fun c => negb (c =? 93)%N) r in
    if truthy g && startsWith (lit "]") (skipn (length g) r) then Some g else None
  else None.

(** [/\(([^)]+)\)/] at one position: group 1. *)
Definition parenAt (s : str) : option str :=
  if startsWith (lit "(") s then
    let r := skipn 1 s in
    let g := takeWhile (fun c => negb (c =? 41)%N) r in
    if truthy g && startsWith (lit ")") (skipn (length g) r) then Some g else None
  else None.

(** The number expression of the grid layout at one position: one or more
    digits, an optional comma, then any number of digits, all greedy.  The
    result is the length of the match and the match wrapped in [<strong>]. *)
Definition numberAt (s : str) : option (nat * str) :=
  let d1 := takeWhile isDigit s in
  if truthy d1 then
    let r := skipn (length d1) s in
    let comma := if startsWith (lit ",") r then lit "," else [] in
    let d2 := takeWhile isDigit (skipn (length comma) r) in
    let m := d1 ++ comma ++ d2 in
    Some (length m, lit "<strong>" ++ m ++ lit "</strong>")
  else None.

(** [/\[([^\]]+)\]\([^)]+\)/g] at one position: the length of the match and
    group 1 wrapped in the highlight span. *)
Definition linkAt (s : str) : option (nat * str) :=
  match bracketAt s with
  | Some g =>
      let r := skipn (length g + 2) s in
      match parenAt r with
      | Some h => Some (((length g + 2) + (length h + 2))%nat,
                       tpl "<span class=~highlight~>" ++ g ++ lit "</span>")
      | None => None
      end
  | None => None
  end.

(** The first [text.replace] of the plain list: [/^([^—]+)—/], a non-empty
    greedy run without em-dash at the start of the text and the em-dash
    behind it, becomes the run in the highlight span, a space and the
    em-dash. *)
Definition highlightLabel (text : str) : str :=
  let g := takeWhile (fun c => negb (c =? emdash)%N) text in
  match skipn (length g) text with
  | c :: r =>
      if truthy g && (c =? emdash)%N
      then tpl "<span class=~highlight~>" ++ g ++ lit "</span> " ++ [emdash] ++ r
      else text
  | [] => text
  end.

(** The body of [stats.forEach]. *)
Definition statCard (html : str) (stat : str * str) : Res str :=
  let '(key, value) := stat in
  let hasPercentage := includes (lit "(") value && includes (lit "%)") value in
  let mainValue := if hasPercentage then trim (hd [] (split 40%N value)) else value in
  percentage <- (if hasPercentage
                 then g <- group1 (firstMatch percentAt value) ;; Ok (Some g)
                 else Ok None) ;;
  let html := html ++ tpl "                <div class=~stat-card~>" ++ nl in
  let html := html ++ tpl "                    <span class=~big-number~>"
                   ++ mainValue ++ lit "</span>" ++ nl in
  let html := html ++ lit "                    <span>"
                   ++ map (fun c => if (c =? 95)%N then 32%N else c) key
                   ++ lit "</span>" ++ nl in
  let html := if truthyOpt percentage
              then html ++ tpl "                    <span class=~percentage~>("
                        ++ match percentage with Some p => p | None => [] end
                        ++ lit ")</span>" ++ nl
              else html in
  Ok (html ++ lit "                </div>" ++ nl).

(** The body of [listItems.forEach] in the grid layout. *)
Definition topItem (html : str) (text : str) : Res str :=
  let parts := map trim (split emdash text) in
  match parts with
  | [name; stats] =>
      let isLink := includes (lit "](") name in
      displayName <- (if isLink then group1 (firstMatch bracketAt name) else Ok name) ;;
      href <- (if isLink then g <- group1 (firstMatch parenAt name) ;; Ok (Some g)
               else Ok None) ;;
      let html := html ++ tpl "                <div class=~top-item~>" ++ nl in
      let html :=
        if truthyOpt href
        then html ++ tpl "                    <a href=~"
                  ++ match href with Some h => h | None => [] end
                  ++ tpl "~ class=~domain~>" ++ displayName ++ lit "</a>" ++ nl
        else html ++ tpl "                    <span style=~color: #7878EF; font-weight: 700;~>"
                  ++ displayName ++ lit "</span>" ++ nl in
      let html := html ++ lit "                    <span>"
                       ++ replaceAll numberAt 0 stats ++ lit "</span>" ++ nl in
      Ok (html ++ lit "                </div>" ++ nl)
  | _ => Ok html
  end.

(** The body of [listItems.forEach] in the plain list. *)
Definition plainItem (html : str) (text : str) : Res str :=
  let text := highlightLabel text in
  let text := replaceAll linkAt 0 text in
  Ok (html ++ lit "                <li>" ++ text ++ lit "</li>" ++ nl).

(** [item.text.includes('—') && /\d+/.test(item.text)] *)
Definition looksRanked (text : str) : bool :=
  includes [emdash] text && existsb isDigit text.

(** The statement [if (listItems.length > 0) ...]. *)
Definition listSection (listItems : list str) (html : str) : Res str :=
  if (0 <? length listItems)%nat then
    let isRankedList := existsb looksRanked listItems in
    if isRankedList && (length listItems <=? 6)%nat then
      let html := html ++ tpl "            <div class=~top-list~>" ++ nl in
      html <- forEachM topItem listItems html ;;
      Ok (html ++ lit "            </div>" ++ nl)
    else
      let html := html ++ lit "            <ul>" ++ nl in
      html <- forEachM plainItem listItems html ;;
      Ok (html ++ lit "            </ul>" ++ nl)
  else Ok html.

(** The statement [if (stats.length > 0) ...]. *)
Definition statSection (stats : list (str * str)) (html : str) : Res str :=
  if (0 <? length stats)%nat then
    let html := html ++ tpl "            <div class=~stat-grid~>" ++ nl in
    html <- forEachM statCard stats html ;;
    Ok (html ++ lit "            </div>" ++ nl)
  else Ok html.

(** The text a code block embeds. *)
Definition codeTextOf (language text : str) : str :=
  let codeText := escapeHtml text in
  if eqs language (lit "terminal") then
    join nl (map (fun line =>
                    if startsWith (lit "$") line
                    then tpl "<span class=~terminal-prompt~>" ++ line ++ lit "</span>"
                    else line)
                 (split newline codeText))
  else codeText.

(** The body of [codeBlocks.forEach]. *)
Definition codeBlock (html : str) (item : str * str) : str :=
  let '(language, text) := item in
  html ++ tpl "            <pre class=~code-block"
       ++ (if truthy language then lit " language-" ++ language else [])
       ++ tpl "~><code>" ++ codeTextOf language text ++ lit "</code></pre>" ++ nl.

Section Document.

(** [String.prototype.toLowerCase], whose Unicode tables are not part of the
    program. *)
Variable toLowerCase : str -> str.

(** The three static pieces of the document template of [generateHTML]:
    before the slides, between the slides and [Date.now()], and behind. *)
Variables docHead docMid docTail : str.

(** The callback of [slides.map]; [slidesLength] is [slides.length]. *)
Definition slideHTML (slidesLength : nat) (slide : Slide) (index : nat) : Res str :=
  let isPopQuizWarning :=
    match title slide with
    | Some t => truthy t && includes (lit "pop quiz warning") (toLowerCase t)
    | None => false
    end in
  let isTerminalSlide :=
    negb (truthyOpt (title slide))
    && existsb (fun c => match c with
                         | Code l _ => eqs l (lit "terminal")
                         | _ => false
                         end) (content slide) in
  let html := tpl "    <div class=~slide"
              ++ (match type slide with TTitle => lit " intro-slide" | _ => [] end)
              ++ (if isPopQuizWarning then lit " pop-quiz-warning" else [])
              ++ (if isTerminalSlide then lit " terminal-slide" else [])
              ++ tpl "~>" ++ nl in
  let html := html ++ tpl "        <div class=~content~>" ++ nl in
  let html :=
    match title slide with
    | Some t =>
        if truthy t then
          match type slide with
          | TTitle => html ++ lit "            <h1>" ++ t ++ lit "</h1>" ++ nl
          | _ => html ++ lit "            <h2>" ++ t ++ lit "</h2>" ++ nl
          end
        else html
    | None => html
    end in
  let stats := statsOf (content slide) in
  let listItems := listItemsOf (content slide) in
  let texts := textsOf (content slide) in
  let subtitles := subtitlesOf (content slide) in
  let images := imagesOf (content slide) in
  let codeBlocks := codeBlocksOf (content slide) in
  let html :=
    match type slide with
    | TTitle => if (0 <? length texts)%nat
                then html ++ tpl "            <div class=~divider~></div>" ++ nl
                else html
    | _ => html
    end in
  let html := fold_left (fun html text =>
                html ++ lit "            <h3>" ++ text ++ lit "</h3>" ++ nl)
              subtitles html in
  html <- statSection stats html ;;
  html <- listSection listItems html ;;
  let html := fold_left (fun html text =>
                html ++ lit "            <p>" ++ text ++ lit "</p>" ++ nl)
              texts html in
  let html := fold_left codeBlock codeBlocks html in
  let html := fold_left (fun html (item : str * str) =>
                let '(alt, src) := item in
                html ++ tpl "            <img src=~" ++ src ++ tpl "~ alt=~" ++ alt
                     ++ tpl "~ class=~slide-image~>" ++ nl)
              images html in
  let html := html ++ lit "        </div>" ++ nl in
  let html := html ++ tpl "        <img src=~favicon.png~ alt=~Logo~ class=~slide-logo~>" ++ nl in
  let html := html ++ tpl "        <span class=~slide-number~>"
                   ++ numToString (N.of_nat (index + 1)) ++ lit "/"
                   ++ numToString (N.of_nat slidesLength) ++ lit "</span>" ++ nl in
  let html := html ++ lit "    </div>" ++ nl ++ nl in
  Ok html.

(** [slides.map(...)]: the fragments, one per slide. *)
Definition slideFragments (slides : list Slide) : Res (list str) :=
  mapM (slideHTML (length slides)) slides 0.

(** [generateHTML(slides)]; [now] is what [Date.now()] reads while the
    template is filled in (it is evaluated after the slides are mapped). *)
Definition generateHTML (now : N) (slides : list Slide) : Res str :=
  frags <- slideFragments slides ;;
  let slideHTML := concat frags in
  Ok (docHead ++ slideHTML ++ docMid ++ numToString now ++ docTail).

End Document.

End Render.

Import Render.

(** ** generateSlides and the single-shot run *)

Module Main.

Definition MARKDOWN_FILE : str := lit "text.md".
Definition OUTPUT_FILE : str := lit "index.html".

Section Generate.

Variable toLowerCase : str -> str.
Variables docHead docMid docTail : str.

(** The file system and the two calls of [fs] the function makes.  A write
    that throws may still have changed the file system. *)
Variable FS : Type.
Variable readFileSync : FS -> str -> Res str.
Variable writeFileSync : FS -> str -> str -> FS * Res unit.

(** What the run can see and change: the files, the clock, and the calls
    made of [console.log] (each with its message) and of [console.error]
    (each with its message and the error), in the order they were made.
    How many lines a call prints is not modelled. *)
Record World := mkWorld {
  fs : FS;
  clock : N;
  stdout : list str;
  stderr : list (str * Exn)
}.

Definition consoleLog (w : World) (m : str) : World :=
  {| fs := fs w; clock := clock w; stdout := stdout w ++ [m]; stderr := stderr w |}.

Definition consoleError (w : World) (m : str) (e : Exn) : World :=
  {| fs := fs w; clock := clock w; stdout := stdout w; stderr := stderr w ++ [(m, e)] |}.

Definition setFs (w : World) (f : FS) : World :=
  {| fs := f; clock := clock w; stdout := stdout w; stderr := stderr w |}.

(** The [catch] clause. *)
Definition failed (w : World) (e : Exn) : bool * World :=
  (false, consoleError w (lit "Error generating slides:") e).

(** [generateSlides()]: the [try] block statement by statement. *)
Definition generateSlides (w : World) : bool * World :=
  match readFileSync (fs w) MARKDOWN_FILE with
  | Throw e => failed w e
  | Ok markdown =>
      let slides := parseMarkdown markdown in
      match generateHTML toLowerCase docHead docMid docTail (clock w) slides with
      | Throw e => failed w e
      | Ok html =>
          let '(f, r) := writeFileSync (fs w) OUTPUT_FILE html in
          let w := setFs w f in
          match r with
          | Throw e => failed w e
          | Ok _ =>
              (true, consoleLog w ([checkmark] ++ lit " Generated "
                                   ++ numToString (N.of_nat (length slides))
                                   ++ lit " slides in " ++ OUTPUT_FILE))
          end
      end
  end.

(** The script without [--watch]: the statement [generateSlides();] drops the
    result; the script sets no exit code, calls no [process.exit] on this
    path and lets no exception escape, so the process ends with status 0. *)
Definition runOnce (w : World) : World * Z :=
  let '(_, w') := generateSlides w in (w', 0%Z).

End Generate.

Arguments mkWorld {FS} fs clock stdout stderr.
Arguments fs {FS} w.
Arguments clock {FS} w.
Arguments stdout {FS} w.
Arguments stderr {FS} w.
Arguments consoleLog {FS} w m.
Arguments consoleError {FS} w m e.
Arguments setFs {FS} w f.
Arguments failed {FS} w e.
Arguments generateSlides toLowerCase docHead docMid docTail {FS}
  readFileSync writeFileSync w.
Arguments runOnce toLowerCase docHead docMid docTail {FS}
  readFileSync writeFileSync w.

(** A file system for examples: the files by name; a file that is not there
    cannot be read, and every write succeeds. *)
Definition Files := list (str * str).

Fixpoint readFile (f : Files) (name : str) : Res str :=
  match f with
  | [] => Throw IOError
  | (n, d) :: f' => if eqs n name then Ok d else readFile f' name
  end.

Definition writeFile (f : Files) (name data : str) : Files * Res unit :=
  ((name, data) :: f, Ok tt).

(** Lower case of the ASCII letters, for examples. *)
Definition asciiLower (s : str) : str :=
  map (fun c => if ((65 <=? c) && (c <=? 90))%N then (c + 32)%N else c) s.

End Main.

Import Main.

(** ** The notions the specification uses, over the model *)

Module Spec.

(** A slide-break line, and a level-1 or level-2 header line. *)
Definition isBreakLine (line : str) : bool :=
  eqs (trim line) (lit "<hr>") || eqs (trim line) (lit "---").

Definition isHeaderLine (line : str) : bool :=
  match matchHeader (lit "#") line, matchHeader (lit "##") line with
  | None, None => false
  | _, _ => true
  end.

Definition isMetadataLine (line : str) : bool :=
  startsWith (lit "slides:") line || startsWith (lit "Also share with") line.

(** A line is a boundary when the parser reads it outside a fenced block and
    it is a break or a header (fence and metadata lines come first). *)
Definition isBoundary (st : PState) (line : str) : bool :=
  negb (startsWith fence line) && negb (inCodeBlock st)
  && negb (isMetadataLine line) && (isBreakLine line || isHeaderLine line).

Definition openSlide (st : PState) : list Slide :=
  match currentSlide st with Some s => [s] | None => [] end.

(** The slides that are open when a boundary is reached, each as it is at
    that moment, in the order of the boundaries; the end of the input is the
    last boundary. *)
Fixpoint closedSlides (st : PState) (ls : list str) : list Slide :=
  match ls with
  | [] => openSlide st
  | l :: ls' =>
      (if isBoundary st l then openSlide st else []) ++ closedSlides (step st l) ls'
  end.

Definition hasBlocks (s : Slide) : bool := (0 <? length (content s))%nat.

(** The subtitle, list-item and stat blocks a parser state holds. *)
Definition isInterpreted (b : Block) : bool :=
  match b with
  | Subtitle _ | ListItem _ | Stat _ _ => true
  | _ => false
  end.

Definition interpretedBlocks (st : PState) : nat :=
  length (filter isInterpreted
            (flat_map content (slides st ++ openSlide st))).

(** The line gets as far as the key-value rule: no earlier rule of the loop
    takes it. *)
Definition reachesStatRule (line : str) : bool :=
  negb (startsWith fence line) && negb (isMetadataLine line)
  && negb (isBreakLine line) && negb (isHeaderLine line)
  && match matchHeader (lit "###") line with Some _ => false | None => true end
  && negb (startsWith (lit "- ") line).

(** The cut of a line at its first colon. *)
Definition cutAtColon (line a b : str) : Prop :=
  line = a ++ lit ":" ++ b /\ ~ In 58%N a.

(** The conditions of the key-value rule as the specification words them:
    no white space in the key, a digit in the value. *)
Definition ClaimedStatLine (line key value : str) : Prop :=
  exists a b, cutAtColon line a b
    /\ startsWith (lit "http") line = false
    /\ key = trim a /\ value = trim b
    /\ key <> [] /\ (forall c, In c key -> isSpace c = false)
    /\ value <> [] /\ (exists c, In c value /\ isDigit c = true).

(** The conditions the loop tests: no space (U+0020) in the key, a digit or
    a comma in the value. *)
Definition StatLine (line key value : str) : Prop :=
  exists a b, cutAtColon line a b
    /\ startsWith (lit "http") line = false
    /\ key = trim a /\ value = trim b
    /\ key <> [] /\ ~ In 32%N key
    /\ value <> [] /\ (exists c, In c value /\ (isDigit c = true \/ c = 44%N)).

(** The same with a digit in the value. *)
Definition StatLineDigit (line key value : str) : Prop :=
  exists a b, cutAtColon line a b
    /\ startsWith (lit "http") line = false
    /\ key = trim a /\ value = trim b
    /\ key <> [] /\ ~ In 32%N key
    /\ value <> [] /\ (exists c, In c value /\ isDigit c = true).

(** The value of the line, the trimmed text behind its first colon, holds a
    comma and no digit. *)
Definition commaOnlyValue (line : str) : Prop :=
  exists a b, cutAtColon line a b
    /\ In 44%N (trim b) /\ (forall c, In c (trim b) -> isDigit c = false).

(** *** The renderer *)

(** The categories of content blocks. *)
Inductive Category := CSubtitle | CStat | CListItem | CText | CCode | CImage.

Definition categoryOf (b : Block) : Category :=
  match b with
  | Subtitle _ => CSubtitle
  | Stat _ _ => CStat
  | ListItem _ => CListItem
  | Text _ => CText
  | Code _ _ => CCode
  | Image _ _ => CImage
  end.

Definition sameCategory (k : Category) (b : Block) : bool :=
  match k, categoryOf b with
  | CSubtitle, CSubtitle | CStat, CStat | CListItem, CListItem
  | CText, CText | CCode, CCode | CImage, CImage => true
  | _, _ => false
  end.

(** The fragments of the items of one category, one behind the other in the
    order of the list; an item that throws ends the rendering. *)
Fixpoint concatM {A : Type} (f : A -> Res str) (l : list A) : Res str :=
  match l with
  | [] => Ok []
  | x :: l' => r <- f x ;; rs <- concatM f l' ;; Ok (r ++ rs)
  end.

(** What a statement adds behind the [html] it gets. *)
Definition appendTo (html : str) (r : Res str) : Res str :=
  x <- r ;; Ok (html ++ x).

Definition subtitleHtml (text : str) : str :=
  lit "            <h3>" ++ text ++ lit "</h3>" ++ nl.

Definition textHtml (text : str) : str :=
  lit "            <p>" ++ text ++ lit "</p>" ++ nl.

Definition imageHtml (item : str * str) : str :=
  tpl "            <img src=~" ++ snd item ++ tpl "~ alt=~" ++ fst item
      ++ tpl "~ class=~slide-image~>" ++ nl.

Definition codeHtml (item : str * str) : str := codeBlock [] item.

(** The stat grid. *)
Definition statsHtml (stats : list (str * str)) : Res str :=
  match stats with
  | [] => Ok []
  | _ :: _ =>
      rs <- concatM (statCard []) stats ;;
      Ok (tpl "            <div class=~stat-grid~>" ++ nl ++ rs
          ++ lit "            </div>" ++ nl)
  end.

(** The two layouts of the list items: the ranked grid and the plain
    bulleted list. *)
Definition gridList (listItems : list str) : Res str :=
  rs <- concatM (topItem []) listItems ;;
  Ok (tpl "            <div class=~top-list~>" ++ nl ++ rs
      ++ lit "            </div>" ++ nl).

Definition bulletList (listItems : list str) : Res str :=
  rs <- concatM (plainItem []) listItems ;;
  Ok (lit "            <ul>" ++ nl ++ rs ++ lit "            </ul>" ++ nl).

(** The condition of the grid as the specification words it (all items look
    ranked) and as the renderer tests it (some item does). *)
Definition claimedGrid (listItems : list str) : bool :=
  forallb looksRanked listItems && (length listItems <=? 6)%nat.

Definition usesGrid (listItems : list str) : bool :=
  existsb looksRanked listItems && (length listItems <=? 6)%nat.

Definition listHtml (listItems : list str) : Res str :=
  match listItems with
  | [] => Ok []
  | _ :: _ => if usesGrid listItems then gridList listItems else bulletList listItems
  end.

Section SlideFrame.

Variable toLowerCase : str -> str.

(** The opening of a slide: the container with its style flags, the title
    and the divider. *)
Definition slideOpen (ty : SlideType) (ttl : option str)
    (texts : list str) (codeBlocks : list (str * str)) : str :=
  let isPopQuizWarning :=
    match ttl with
    | Some t => truthy t && includes (lit "pop quiz warning") (toLowerCase t)
    | None => false
    end in
  let isTerminalSlide :=
    negb (truthyOpt ttl)
    && existsb (fun c => eqs (fst c) (lit "terminal")) codeBlocks in
  tpl "    <div class=~slide"
  ++ (match ty with TTitle => lit " intro-slide" | _ => [] end)
  ++ (if isPopQuizWarning then lit " pop-quiz-warning" else [])
  ++ (if isTerminalSlide then lit " terminal-slide" else [])
  ++ tpl "~>" ++ nl
  ++ tpl "        <div class=~content~>" ++ nl
  ++ (match ttl with
      | Some t =>
          if truthy t then
            match ty with
            | TTitle => lit "            <h1>" ++ t ++ lit "</h1>" ++ nl
            | _ => lit "            <h2>" ++ t ++ lit "</h2>" ++ nl
            end
          else []
      | None => []
      end)
  ++ (match ty with
      | TTitle => if (0 <? length texts)%nat
                  then tpl "            <div class=~divider~></div>" ++ nl
                  else []
      | _ => []
      end).

End SlideFrame.

(** The end of a slide: the logo and the slide number. *)
Definition slideClose (slidesLength index : nat) : str :=
  lit "        </div>" ++ nl
  ++ tpl "        <img src=~favicon.png~ alt=~Logo~ class=~slide-logo~>" ++ nl
  ++ tpl "        <span class=~slide-number~>"
  ++ numToString (N.of_nat (index + 1)) ++ lit "/"
  ++ numToString (N.of_nat slidesLength) ++ lit "</span>" ++ nl
  ++ lit "    </div>" ++ nl ++ nl.

(** *** The items of the ranked grid *)

(** The text holds exactly one em-dash, between [a] and [b]. *)
Definition oneDash (text a b : str) : Prop :=
  text = a ++ [emdash] ++ b /\ ~ In emdash a /\ ~ In emdash b.

Definition countChar (c : char) (s : str) : nat :=
  length (filter (N.eqb c) s).

(** The cut of an item at its first em-dash, as the specification words
    it: the trimmed name before it and the trimmed rest behind it. *)
Definition cutAtFirstDash (text : str) : option (str * str) :=
  if includes [emdash] text then
    let a := takeWhile (fun c => negb (c =? emdash)%N) text in
    Some (trim a, trim (skipn (S (length a)) text))
  else None.

(** The stats part with its numbers wrapped. *)
Definition emphasizeNumbers (stats : str) : str := replaceAll numberAt 0 stats.

(** A name as a hyperlink, a name as plain emphasized text, and the entry
    of the grid around either. *)
Definition linkName (href display : str) : str :=
  tpl "                    <a href=~" ++ href ++ tpl "~ class=~domain~>"
  ++ display ++ lit "</a>" ++ nl.

Definition plainName (name : str) : str :=
  tpl "                    <span style=~color: #7878EF; font-weight: 700;~>"
  ++ name ++ lit "</span>" ++ nl.

Definition topItemHtml (nameHtml stats : str) : str :=
  tpl "                <div class=~top-item~>" ++ nl ++ nameHtml
  ++ lit "                    <span>" ++ emphasizeNumbers stats ++ lit "</span>" ++ nl
  ++ lit "                </div>" ++ nl.

(** The markdown link with display text [d] and target [h]. *)
Definition markdownLink (d h : str) : str :=
  lit "[" ++ d ++ lit "](" ++ h ++ lit ")".

(** The string is empty or begins with a code unit that fails [p]. *)
Definition stopsAt (p : char -> bool) (s : str) : Prop :=
  match s with
  | [] => True
  | c :: _ => p c = false
  end.

(** The number a string of decimal digits stands for. *)
Definition decimalValue (s : str) : N :=
  fold_left (fun v c => (10 * v + (c - 48))%N) s 0%N.

(** *** Escaping *)

(** What escaping does to one code unit: the five reserved characters become
    their entities, every other code unit stays. *)
Definition escapeChar (c : char) : str :=
  if (c =? 38)%N then lit "&amp;"
  else if (c =? 60)%N then lit "&lt;"
  else if (c =? 62)%N then lit "&gt;"
  else if (c =? 34)%N then lit "&quot;"
  else if (c =? 39)%N then lit "&#039;"
  else [c].

(** A line of a terminal block: escaped, and in the prompt span when it
    begins with the dollar sign. *)
Definition promptLine (line : str) : str :=
  if startsWith (lit "$") line
  then tpl "<span class=~terminal-prompt~>" ++ escapeHtml line ++ lit "</span>"
  else escapeHtml line.







End Spec.

Import Spec.


(** ** Further notions over the model *)

Module More.

(** A string [trim] leaves as it is. *)
Definition trimmed (s : str) : Prop := trim s = s.

(** What every block the parser makes satisfies, by the rule that made it. *)
Definition wellFormed (b : Block) : Prop :=
  match b with
  | Subtitle t => trimmed t
  | ListItem t => trimmed t
  | Text t => t <> [] /\ trimmed t
  | Stat k v =>
      k <> [] /\ trimmed k /\ ~ In 32%N k /\ ~ In 58%N k
      /\ v <> [] /\ trimmed v
      /\ (exists c, In c v /\ (isDigit c = true \/ c = 44%N))
  | Image a s => ~ In 93%N a /\ s <> [] /\ ~ In 41%N s
  | Code l _ => trimmed l
  end.

(** What every slide the parser makes satisfies: it has a title exactly when
    a header opened it, the title is trimmed, and its blocks are well
    formed. *)
Definition wellFormedSlide (s : Slide) : Prop :=
  (type s = TContent <-> title s = None)
  /\ (forall t, title s = Some t -> trimmed t)
  /\ Forall wellFormed (content s).



(** Two parser states that differ in their finished slides at most. *)
Definition sameOpen (st st' : PState) : Prop :=
  currentSlide st = currentSlide st' /\ inCodeBlock st = inCodeBlock st'
  /\ codeBlockContent st = codeBlockContent st'
  /\ codeBlockLang st = codeBlockLang st'.

(** Outside a fenced block the two code-block variables are reset. *)
Definition fenceReset (st : PState) : Prop :=
  inCodeBlock st = false -> codeBlockContent st = [] /\ codeBlockLang st = [].

(** A block that is not a code block. *)
Definition notCode (b : Block) : Prop :=
  match b with Code _ _ => False | _ => True end.

(** [p] occurs in [s]: [s] is some [a], then [p], then some [b]. *)
Definition occursIn (p s : str) : Prop := exists a b, s = a ++ p ++ b.

(** The card of one stat: the main value, the key with its underscores
    turned into spaces, and the percentage if there is one. *)
Definition statCardHtml (mainValue key : str) (percentage : option str) : str :=
  tpl "                <div class=~stat-card~>" ++ nl
  ++ tpl "                    <span class=~big-number~>" ++ mainValue
  ++ lit "</span>" ++ nl
  ++ lit "                    <span>"
  ++ map (fun c => if (c =? 95)%N then 32%N else c) key ++ lit "</span>" ++ nl
  ++ (match percentage with
      | Some p => tpl "                    <span class=~percentage~>(" ++ p
                  ++ lit ")</span>" ++ nl
      | None => []
      end)
  ++ lit "                </div>" ++ nl.

(** A code unit of a number with a decimal point. *)
Definition isDigitOrDot (c : char) : bool := isDigit c || (c =? 46)%N.

Definition isSome {A : Type} (o : option A) : bool :=
  match o with Some _ => true | None => false end.

(** A stat value the renderer can show: when it holds an opening parenthesis
    and a percent sign before a closing one, the percentage expression
    matches in it. *)
Definition safeStat (value : str) : bool :=
  negb (includes (lit "(") value && includes (lit "%)") value)
  || isSome (firstMatch percentAt value).

(** A list item the grid can show: when it has two parts and the name holds
    [](], both the bracket and the parenthesis expression match in the name. *)
Definition safeItem (text : str) : bool :=
  match map trim (split emdash text) with
  | [name; _] =>
      negb (includes (lit "](") name)
      || (isSome (firstMatch bracketAt name) && isSome (firstMatch parenAt name))
  | _ => true
  end.

(** A slide the renderer can show. *)
Definition safeSlide (s : Slide) : bool :=
  forallb (fun p => safeStat (snd p)) (statsOf (content s))
  && (negb (usesGrid (listItemsOf (content s)))
      || forallb safeItem (listItemsOf (content s))).

(** The value of a stat block and the text of a list item hold only code
    units that satisfy [P]. *)
Definition valueChars (P : char -> Prop) (b : Block) : Prop :=
  match b with
  | Stat _ v => forall x, In x v -> P x
  | ListItem t => forall x, In x t -> P x
  | _ => True
  end.

End More.

Import More.

(** ** What a slide shows of each block *)

(** The elements of a fragment, written out block by block without the
    renderer's loops: what the specification says a slide shows. *)
Module Emit.

(** The escaped text: each reserved character as its entity. *)
Definition escapedText (text : str) : str := flat_map escapeChar text.

(** A line of a terminal block. *)
Definition promptLineOf (line : str) : str :=
  if startsWith (lit "$") line
  then tpl "<span class=~terminal-prompt~>" ++ escapedText line ++ lit "</span>"
  else escapedText line.

(** The text a code element embeds: the escaped text, with the prompt lines
    wrapped when the language is the terminal marker. *)
Definition embeddedCode (language text : str) : str :=
  if eqs language (lit "terminal")
  then join nl (map promptLineOf (split newline text))
  else escapedText text.

(** The element of a code block (language, text). *)
Definition codeElement (item : str * str) : str :=
  tpl "            <pre class=~code-block"
  ++ (if truthy (fst item) then lit " language-" ++ fst item else [])
  ++ tpl "~><code>" ++ embeddedCode (fst item) (snd item)
  ++ lit "</code></pre>" ++ nl.

(** The card of a stat (key, value); it cannot be made when the value looks
    like it holds a percentage and holds none. *)
Definition statCardOf (stat : str * str) : Res str :=
  let '(key, value) := stat in
  if includes (lit "(") value && includes (lit "%)") value then
    match firstMatch percentAt value with
    | Some p => Ok (statCardHtml (trim (hd [] (split 40%N value))) key (Some p))
    | None => Throw TypeError
    end
  else Ok (statCardHtml value key None).

(** The entry of a list item in the grid: nothing unless the text has
    exactly two parts around one em-dash. *)
Definition rankedEntryOf (text : str) : Res str :=
  match map trim (split emdash text) with
  | [name; stats] =>
      if includes (lit "](") name then
        match firstMatch bracketAt name, firstMatch parenAt name with
        | Some d, Some h => Ok (topItemHtml (linkName h d) stats)
        | _, _ => Throw TypeError
        end
      else Ok (topItemHtml (plainName name) stats)
  | _ => Ok []
  end.

(** The element of a list item in the plain list. *)
Definition bulletItemOf (text : str) : str :=
  lit "                <li>" ++ replaceAll linkAt 0 (highlightLabel text)
  ++ lit "</li>" ++ nl.

(** The stat grid, the ranked grid and the bulleted list around their
    elements, and the layout of the list items. *)
Definition statGrid (stats : list (str * str)) : Res str :=
  match stats with
  | [] => Ok []
  | _ :: _ =>
      rs <- concatM statCardOf stats ;;
      Ok (tpl "            <div class=~stat-grid~>" ++ nl ++ rs
          ++ lit "            </div>" ++ nl)
  end.

Definition rankedGrid (listItems : list str) : Res str :=
  rs <- concatM rankedEntryOf listItems ;;
  Ok (tpl "            <div class=~top-list~>" ++ nl ++ rs
      ++ lit "            </div>" ++ nl).

Definition bulletedList (listItems : list str) : str :=
  lit "            <ul>" ++ nl ++ concat (map bulletItemOf listItems)
  ++ lit "            </ul>" ++ nl.

Definition listLayout (listItems : list str) : Res str :=
  match listItems with
  | [] => Ok []
  | _ :: _ => if usesGrid listItems then rankedGrid listItems
              else Ok (bulletedList listItems)
  end.

(** A fragment shows every block of the content: each subtitle, text, code
    block and image as its element, each stat as its card, each list item as
    its element of the plain list or as its entry of the grid. *)
Definition showsBlock (listItems : list str) (frag : str) (b : Block) : Prop :=
  match b with
  | Subtitle t => occursIn (subtitleHtml t) frag
  | Text t => occursIn (textHtml t) frag
  | Code l t => occursIn (codeElement (l, t)) frag
  | Image a s => occursIn (imageHtml (a, s)) frag
  | Stat k v => exists card, statCardOf (k, v) = Ok card /\ occursIn card frag
  | ListItem t =>
      if usesGrid listItems
      then exists entry, rankedEntryOf t = Ok entry /\ occursIn entry frag
      else occursIn (bulletItemOf t) frag
  end.

End Emit.

Import Emit.

(** ** The model on the documents of the specification *)

Example parse_scenario :
  parseMarkdown (lit "# Title" ++ [newline] ++ lit "Intro text" ++ [newline; newline]
                 ++ lit "---" ++ [newline; newline] ++ lit "## Stats" ++ [newline]
                 ++ lit "packages: 100" ++ [newline] ++ lit "users: 50" ++ [newline])
  = [ {| type := TTitle; title := Some (lit "Title");
         content := [Text (lit "Intro text")] |};
      {| type := TSection; title := Some (lit "Stats");
         content := [Stat (lit "packages") (lit "100"); Stat (lit "users") (lit "50")] |} ].
Proof. vm_compute. reflexivity. Qed.

Example parse_fenced_block :
  parseMarkdown (lit "## Code" ++ [newline] ++ fence ++ lit "js" ++ [newline]
                 ++ lit "# not a title" ++ [newline] ++ lit "- x: 1" ++ [newline] ++ fence)
  = [ {| type := TSection; title := Some (lit "Code");
         content := [Code (lit "js") (lit "# not a title" ++ [newline] ++ lit "- x: 1")] |} ].
Proof. vm_compute. reflexivity. Qed.

Example escapeHtml_script :
  escapeHtml (lit "<script>alert('x' & 1)</script>" ++ [34%N])
  = lit "&lt;script&gt;alert(&#039;x&#039; &amp; 1)&lt;/script&gt;&quot;".
Proof. vm_compute. reflexivity. Qed.

Example render_stat_percentage :
  statCard [] (lit "active_users", lit "150,926 (92.5%)")
  = Ok (tpl "                <div class=~stat-card~>" ++ nl
        ++ tpl "                    <span class=~big-number~>150,926</span>" ++ nl
        ++ lit "                    <span>active users</span>" ++ nl
        ++ tpl "                    <span class=~percentage~>(92.5%)</span>" ++ nl
        ++ lit "                </div>" ++ nl).
Proof. vm_compute. reflexivity. Qed.

Example render_plain_item :
  plainItem [] (lit "npm " ++ [emdash] ++ lit " see [the registry](https://npmjs.com)")
  = Ok (lit "                <li>" ++ tpl "<span class=~highlight~>npm </span> " ++ [emdash]
        ++ lit " see " ++ tpl "<span class=~highlight~>the registry</span>"
        ++ lit "</li>" ++ nl).
Proof. vm_compute. reflexivity. Qed.

Example emphasize_two_separators :
  replaceAll numberAt 0 (lit "1,234,567 stars")
  = lit "<strong>1,234</strong>,<strong>567</strong> stars".
Proof. vm_compute. reflexivity. Qed.

(** ** Numbers in template literals *)

Lemma digitsN_value (fuel : nat) (n : N) (acc : list N) :
  (n < 2 ^ N.of_nat fuel)%N ->
  fold_left (fun v c => (10 * v + (c - 48))%N) (digitsN fuel n acc) 0%N
  = fold_left (fun v c => (10 * v + (c - 48))%N) acc n.
Proof.
  revert n acc. induction fuel as [|fuel IH]; intros n acc Hn.
  - cbn in Hn. assert (n = 0%N) by lia. subst n. reflexivity.
  - cbn [digitsN]. cbv zeta.
    pose proof (N.mod_lt n 10 ltac:(discriminate)) as Hm.
    pose proof (N.div_mod n 10 ltac:(discriminate)) as Hd.
    destruct (N.ltb_spec n 10) as [Hlt|Hge].
    + cbn [fold_left]. f_equal. rewrite N.mod_small by exact Hlt.
      clear. lia.
    + rewrite IH.
      * cbn [fold_left]. f_equal.
        replace (48 + n mod 10 - 48)%N with (n mod 10)%N
          by (clear; generalize (n mod 10)%N; intros; lia).
        symmetry. exact Hd.
      * rewrite Nat2N.inj_succ, N.pow_succ_r' in Hn.
        apply N.Div0.div_lt_upper_bound.
        clear - Hn. generalize dependent (2 ^ N.of_nat fuel)%N. intros; lia.
Qed.

(** The digits [numToString] gives are those of its argument: the fuel of
    [digitsN] is enough. *)
Lemma numToString_value (n : N) : decimalValue (numToString n) = n.
Proof.
  unfold decimalValue, numToString. rewrite digitsN_value; [reflexivity|].
  rewrite Nat2N.inj_succ, N2Nat.id.
  destruct (N.eq_dec n 0) as [->|Hn]; [reflexivity|].
  apply N.log2_spec. lia.
Qed.
(** ** The parser: fenced blocks *)

Lemma run_app (a b : list str) (st : PState) :
  run (a ++ b) st = run b (run a st).
Proof. unfold run. apply fold_left_app. Qed.

Lemma step_in_fence (st : PState) (line : str) :
  inCodeBlock st = true -> startsWith fence line = false ->
  step st line =
    {| slides := slides st; currentSlide := currentSlide st; inCodeBlock := true;
       codeBlockContent := codeBlockContent st ++ [line];
       codeBlockLang := codeBlockLang st |}.
Proof.
  intros Hin Hf. unfold step. rewrite Hf, Hin. reflexivity.
Qed.

(** C4.  While the code-block flag is set, lines that are not fence
    delimiters are only collected: whatever they look like, the slides and
    the open slide stay as they are (so the number of subtitle, list-item
    and stat blocks does not grow), the flag stays set, and the lines are kept
    verbatim as the content of the code block. *)
Theorem fenced_lines_are_raw (st : PState) (body : list str) :
  inCodeBlock st = true ->
  Forall (fun l => startsWith fence l = false) body ->
  run body st =
    {| slides := slides st; currentSlide := currentSlide st; inCodeBlock := true;
       codeBlockContent := codeBlockContent st ++ body;
       codeBlockLang := codeBlockLang st |}
  /\ interpretedBlocks (run body st) = interpretedBlocks st.
Proof.
  intros Hin Hall.
  assert (E : run body st =
    {| slides := slides st; currentSlide := currentSlide st; inCodeBlock := true;
       codeBlockContent := codeBlockContent st ++ body;
       codeBlockLang := codeBlockLang st |}).
  { revert st Hin. induction Hall as [|l body Hl _ IH]; intros st Hin.
    - simpl. rewrite app_nil_r. destruct st; simpl in *; subst; reflexivity.
    - simpl. rewrite (step_in_fence st l Hin Hl).
      rewrite IH by reflexivity. simpl. rewrite <- app_assoc. reflexivity. }
  split; [exact E|]. rewrite E. reflexivity.
Qed.

Lemma fenced_lines_are_raw_witness :
  let st := step init fence in
  let body := [lit "### not a subtitle"; lit "- not a list item"; lit "k: 1"] in
  inCodeBlock st = true /\
  currentSlide (run body st) = None /\ slides (run body st) = [] /\
  codeBlockContent (run body st) = body.
Proof.
  assert (Hin : inCodeBlock (step init fence) = true) by reflexivity.
  assert (Hall : Forall (fun l => startsWith fence l = false)
                   [lit "### not a subtitle"; lit "- not a list item"; lit "k: 1"])
    by (repeat constructor).
  destruct (fenced_lines_are_raw (step init fence) _ Hin Hall) as [E _].
  cbv zeta. rewrite E. repeat split; reflexivity.
Defined.

(** ** The parser: which slides are kept *)

Lemma pushSlide_filter (sl : list Slide) (cur : option Slide) :
  pushSlide sl cur =
  sl ++ filter hasBlocks (match cur with Some s => [s] | None => [] end).
Proof.
  unfold pushSlide, hasBlocks. destruct cur as [s|]; simpl.
  - destruct (0 <? length (content s))%nat; [reflexivity | now rewrite app_nil_r].
  - now rewrite app_nil_r.
Qed.

Ltac step_case :=
  cbn [negb andb orb filter slides setSlides addBlock];
  try (rewrite app_nil_r; reflexivity); try apply pushSlide_filter.

Lemma slides_step (st : PState) (line : str) :
  slides (step st line) =
  slides st ++ filter hasBlocks (if isBoundary st line then openSlide st else []).
Proof.
  unfold step, isBoundary, isMetadataLine, isBreakLine, isHeaderLine, openSlide.
  destruct (startsWith fence line); [destruct (inCodeBlock st); now step_case|].
  destruct (inCodeBlock st) eqn:Hin; [now step_case|].
  destruct (startsWith (lit "slides:") line || startsWith (lit "Also share with") line);
    [now step_case|].
  destruct (eqs (trim line) (lit "<hr>") || eqs (trim line) (lit "---"));
    [now step_case|].
  destruct (matchHeader (lit "#") line); [now step_case|].
  destruct (matchHeader (lit "##") line); [now step_case|].
  destruct (matchHeader (lit "###") line); [now step_case|].
  destruct (startsWith (lit "- ") line); [now step_case|].
  destruct (statOf false line); [now step_case|].
  destruct (matchImage line) as [[alt src]|]; [now step_case|].
  destruct (truthy (trim line)); now step_case.
Qed.

Lemma finish_run (ls : list str) (st : PState) :
  finish (run ls st) = slides st ++ filter hasBlocks (closedSlides st ls).
Proof.
  revert st. induction ls as [|l ls IH]; intros st.
  - simpl. unfold finish. apply pushSlide_filter.
  - simpl. change (fold_left step ls (step st l)) with (run ls (step st l)).
    rewrite IH, slides_step, filter_app, app_assoc. reflexivity.
Qed.

Lemma dropWhile_snoc (p : char -> bool) (a : str) (c : char) :
  p c = false -> dropWhile p (a ++ [c]) = dropWhile p a ++ [c].
Proof.
  intros Hc. induction a as [|x a IH]; simpl.
  - now rewrite Hc.
  - destruct (p x); [exact IH | reflexivity].
Qed.

Lemma trim_cons (c : char) (t : str) :
  isSpace c = false -> trim (c :: t) = c :: rev (dropWhile isSpace (rev t)).
Proof.
  intros Hc. unfold trim, trimStart, trimEnd. simpl dropWhile at 2. rewrite Hc.
  simpl rev at 2. rewrite dropWhile_snoc by exact Hc.
  rewrite rev_app_distr. reflexivity.
Qed.

Lemma matchHeader_hash (h line r : str) :
  matchHeader (35%N :: h) line = Some r -> exists t, line = 35%N :: t.
Proof.
  unfold matchHeader. destruct line as [|c t]; cbn [startsWith]; [discriminate|].
  destruct (N.eqb_spec 35 c) as [<-|]; cbn [andb]; [eauto | discriminate].
Qed.

Lemma hash_line_not_special (t : str) :
  startsWith fence (35%N :: t) = false
  /\ isMetadataLine (35%N :: t) = false
  /\ isBreakLine (35%N :: t) = false.
Proof.
  repeat split; unfold isBreakLine; rewrite ?trim_cons; reflexivity.
Qed.

Lemma header_step (h : str) :
  isHeaderLine h = true ->
  exists s, content s = [] /\
    forall st, inCodeBlock st = false ->
      step st h = setSlides st (pushSlide (slides st) (currentSlide st)) (Some s).
Proof.
  unfold isHeaderLine. intros H.
  assert (Ht : exists t, h = 35%N :: t).
  { destruct (matchHeader (lit "#") h) eqn:E1.
    - exact (matchHeader_hash _ _ _ E1).
    - destruct (matchHeader (lit "##") h) eqn:E2; [|discriminate].
      exact (matchHeader_hash _ _ _ E2). }
  destruct Ht as [t ->].
  destruct (hash_line_not_special t) as (Hf & Hm & Hb).
  unfold isMetadataLine in Hm. unfold isBreakLine in Hb.
  destruct (matchHeader (lit "#") (35%N :: t)) as [r|] eqn:E1.
  - eexists. split; [|intros st Hin; unfold step; rewrite Hf, Hin, Hm, Hb, E1; reflexivity].
    reflexivity.
  - destruct (matchHeader (lit "##") (35%N :: t)) as [r|] eqn:E2; [|discriminate].
    eexists. split; [|intros st Hin; unfold step; rewrite Hf, Hin, Hm, Hb, E1, E2; reflexivity].
    reflexivity.
Qed.

Lemma header_after_header (h1 h2 : str) (st : PState) :
  inCodeBlock st = false -> isHeaderLine h1 = true -> isHeaderLine h2 = true ->
  step (step st h1) h2 = step st h2.
Proof.
  intros Hin H1 H2.
  destruct (header_step h1 H1) as (s1 & Hc1 & E1).
  destruct (header_step h2 H2) as (s2 & Hc2 & E2).
  rewrite (E1 st Hin). rewrite E2 by exact Hin. rewrite (E2 st Hin).
  unfold setSlides, pushSlide at 1. cbn [slides currentSlide inCodeBlock
    codeBlockContent codeBlockLang]. rewrite Hc1. reflexivity.
Qed.

(** C1.  The slides [parseMarkdown] returns are the slides open at the
    boundaries of the document (break lines, header lines, the end of the
    input), in that order, each as it was when its boundary was reached, with
    those whose block list is empty left out.  A header line directly followed
    by a header line therefore gives no slide: the document parses as if the
    first header were not there. *)
Theorem slide_retention :
  (forall doc : str,
     parseMarkdown doc = filter hasBlocks (closedSlides init (split newline doc)))
  /\ (forall (h1 h2 : str) (rest : list str),
        isHeaderLine h1 = true -> isHeaderLine h2 = true ->
        parseLines (h1 :: h2 :: rest) = parseLines (h2 :: rest))
  /\ parseMarkdown (lit "# One" ++ [newline] ++ lit "# Two" ++ [newline] ++ lit "body")
     = [ {| type := TTitle; title := Some (lit "Two"); content := [Text (lit "body")] |} ].
Proof.
  split; [|split].
  - intros doc. unfold parseMarkdown, parseLines. now rewrite finish_run.
  - intros h1 h2 rest H1 H2. unfold parseLines. simpl.
    change (fold_left step rest ?s) with (run rest s).
    now rewrite header_after_header.
  - vm_compute. reflexivity.
Qed.

Lemma slide_retention_witness :
  isHeaderLine (lit "# One") = true /\ isHeaderLine (lit "## Two") = true
  /\ parseLines [lit "# One"; lit "## Two"; lit "body"]
     = parseLines [lit "## Two"; lit "body"]
  /\ parseLines [lit "# One"; lit "## Two"] = [].
Proof.
  split; [reflexivity|]. split; [reflexivity|]. split.
  - apply (proj1 (proj2 slide_retention)); reflexivity.
  - rewrite (proj1 (proj2 slide_retention) (lit "# One") (lit "## Two") []);
      reflexivity.
Defined.

(** ** The parser: the key-value rule *)

Lemma includes_char (c : char) (s : str) :
  includes [c] s = true <-> In c s.
Proof.
  induction s as [|y s IH]; cbn [includes startsWith In].
  - split; [discriminate | contradiction].
  - rewrite orb_true_iff, andb_true_r, N.eqb_eq, IH.
    split; (intros [H|H]; [left; congruence | now right]).
Qed.

Lemma indexOf_first (c : char) (a b : str) :
  ~ In c a -> indexOf [c] (a ++ c :: b) = Z.of_nat (length a).
Proof.
  induction a as [|x a IH]; intros Hn.
  - cbn [app indexOf startsWith length]. now rewrite N.eqb_refl.
  - cbn [app indexOf startsWith length]. rewrite andb_true_r.
    destruct (N.eqb_spec c x) as [->|Hx]; [exfalso; apply Hn; now left|].
    rewrite IH by (intros H; apply Hn; now right). cbv zeta.
    destruct (Z.ltb_spec (Z.of_nat (length a)) 0); lia.
Qed.

Lemma in_first (c : char) (s : str) :
  In c s -> exists a b, s = a ++ c :: b /\ ~ In c a.
Proof.
  induction s as [|x s IH]; [contradiction|]. intros H.
  destruct (N.eq_dec x c) as [->|Hx].
  - exists [], s. split; [reflexivity | intros []].
  - destruct H as [H|H]; [contradiction|].
    destruct (IH H) as (a & b & -> & Hn).
    exists (x :: a), b. split; [reflexivity|]. intros [E|E]; [congruence | tauto].
Qed.

Lemma substring_prefix (a b : str) :
  substring (a ++ b) 0 (Z.of_nat (length a)) = a.
Proof.
  unfold substring, clamp. rewrite Nat2Z.id, length_app. cbn [Z.to_nat].
  replace (Nat.min 0 (length a + length b)) with 0%nat by lia.
  replace (Nat.min (length a) (length a + length b)) with (length a) by lia.
  replace (Nat.max 0 (length a) - Nat.min 0 (length a)) with (length a) by lia.
  replace (Nat.min 0 (length a)) with 0%nat by lia.
  cbn [skipn]. rewrite firstn_app, firstn_all, Nat.sub_diag. cbn [firstn].
  apply app_nil_r.
Qed.

Lemma substringFrom_suffix (a b : str) (c : char) :
  substringFrom (a ++ c :: b) (Z.of_nat (length a) + 1) = b.
Proof.
  unfold substringFrom, clamp.
  replace (Z.of_nat (length a) + 1)%Z with (Z.of_nat (length (a ++ [c])))
    by (rewrite length_app; cbn [length]; lia).
  rewrite Nat2Z.id.
  replace (a ++ c :: b) with ((a ++ [c]) ++ b) by (now rewrite <- app_assoc).
  rewrite (length_app (a ++ [c]) b), Nat.min_l by lia.
  rewrite skipn_app, skipn_all, Nat.sub_diag. reflexivity.
Qed.

Lemma truthy_iff (s : str) : truthy s = true <-> s <> [].
Proof. destruct s; cbn; split; congruence. Qed.

Lemma hasDigitOrComma_iff (s : str) :
  hasDigitOrComma s = true <->
  exists c, In c s /\ (isDigit c = true \/ c = 44%N).
Proof.
  unfold hasDigitOrComma. rewrite existsb_exists.
  split; intros (c & Hc & H); exists c; (split; [exact Hc|]);
    rewrite orb_true_iff, N.eqb_eq in *; exact H.
Qed.

Lemma statOf_iff (line key value : str) :
  statOf false line = Some (Stat key value) <-> StatLine line key value.
Proof.
  unfold statOf, StatLine, cutAtColon.
  change (lit ":") with [58%N]. change (lit " ") with [32%N]. split.
  - destruct (includes [58%N] line) eqn:Hc; cbn [negb andb]; [|discriminate].
    apply includes_char in Hc. destruct (in_first _ _ Hc) as (a & b & -> & Hn).
    match goal with
    | |- context [negb (startsWith ?p ?l)] => destruct (startsWith p l) eqn:Hh
    end; cbn [negb andb]; [discriminate|].
    rewrite (indexOf_first _ _ b Hn), substring_prefix, substringFrom_suffix.
    destruct (truthy (trim a)) eqn:Hk; cbn [negb andb]; [|discriminate].
    destruct (truthy (trim b)) eqn:Hv; cbn [negb andb]; [|discriminate].
    destruct (includes [32%N] (trim a)) eqn:Hs; cbn [negb andb]; [discriminate|].
    destruct (hasDigitOrComma (trim b)) eqn:Hd; cbn [negb andb]; [|discriminate].
    intros [= <- <-].
    exists a, b. repeat split; try assumption.
    + now apply truthy_iff.
    + intros Hin. apply (includes_char 32%N) in Hin. congruence.
    + now apply truthy_iff.
    + now apply hasDigitOrComma_iff.
  - intros (a & b & [-> Hn] & Hh & -> & -> & Hk & Hs & Hv & Hd).
    cbn [app] in *.
    assert (Hc : includes [58%N] (a ++ 58%N :: b) = true).
    { apply includes_char, in_or_app. right. now left. }
    rewrite Hc, Hh. cbn [negb andb].
    rewrite (indexOf_first _ _ b Hn), substring_prefix, substringFrom_suffix.
    apply truthy_iff in Hk, Hv. apply hasDigitOrComma_iff in Hd.
    rewrite Hk, Hv, Hd.
    destruct (includes [32%N] (trim a)) eqn:E; [|reflexivity].
    exfalso. apply Hs. now apply (includes_char 32%N).
Qed.

Lemma pushBlock_inj (cur : option Slide) (b b' : Block) :
  pushBlock cur b = pushBlock cur b' -> b = b'.
Proof.
  unfold pushBlock. intros [= H]. now apply app_inj_tail in H.
Qed.

Lemma addBlock_inj (st : PState) (b b' : Block) :
  addBlock st b = addBlock st b' -> b = b'.
Proof.
  intros H. apply (f_equal currentSlide) in H.
  exact (pushBlock_inj _ _ _ H).
Qed.

Lemma addBlock_changes (st : PState) (b : Block) : addBlock st b <> st.
Proof.
  intros H. apply (f_equal currentSlide) in H. cbn in H.
  unfold pushBlock in H. destruct (currentSlide st) as [s|]; [|discriminate].
  injection H as H. apply (f_equal content) in H. cbn in H.
  apply (f_equal (@length Block)) in H. rewrite length_app in H. cbn in H. lia.
Qed.

Lemma step_at_stat_rule (st : PState) (line : str) :
  inCodeBlock st = false -> reachesStatRule line = true ->
  step st line =
    match statOf false line with
    | Some b => addBlock st b
    | None =>
        match matchImage line with
        | Some (alt, src) => addBlock st (Image alt src)
        | None => if truthy (trim line) then addBlock st (Text (trim line)) else st
        end
    end.
Proof.
  intros Hin. unfold reachesStatRule, isMetadataLine, isBreakLine, isHeaderLine, step.
  rewrite Hin.
  destruct (startsWith fence line); [discriminate|].
  destruct (startsWith (lit "slides:") line || startsWith (lit "Also share with") line);
    [discriminate|].
  destruct (eqs (trim line) (lit "<hr>") || eqs (trim line) (lit "---"));
    [discriminate|].
  destruct (matchHeader (lit "#") line); [discriminate|].
  destruct (matchHeader (lit "##") line); [discriminate|].
  destruct (matchHeader (lit "###") line); [discriminate|].
  destruct (startsWith (lit "- ") line); [discriminate|].
  reflexivity.
Qed.

Lemma stat_step_iff (st : PState) (line key value : list N) :
  inCodeBlock st = false -> reachesStatRule line = true ->
  (step st line = addBlock st (Stat key value) <-> StatLine line key value).
Proof.
  intros Hin Hr.
  rewrite (step_at_stat_rule st line Hin Hr), <- statOf_iff.
  destruct (statOf false line) as [b|].
  - split; [intros H; apply addBlock_inj in H | intros [= ->]]; congruence.
  - split; [|discriminate]. intros H. exfalso.
    destruct (matchImage line) as [[alt src]|].
    + apply addBlock_inj in H. discriminate.
    + destruct (truthy (trim line)).
      * apply addBlock_inj in H. discriminate.
      * symmetry in H. exact (addBlock_changes _ _ H).
Qed.

Lemma digit_or_none (s : list N) :
  (exists c, In c s /\ isDigit c = true) \/ (forall c, In c s -> isDigit c = false).
Proof.
  destruct (existsb isDigit s) eqn:E.
  - left. now apply existsb_exists.
  - right. intros c Hc. destruct (isDigit c) eqn:Ec; [|reflexivity].
    assert (X : existsb isDigit s = true) by (apply existsb_exists; eauto).
    congruence.
Qed.

Lemma commaOnlyValue_value (line : list N) :
  commaOnlyValue line ->
  In 44%N (trim (substringFrom line (indexOf [58%N] line + 1))).
Proof.
  intros (a & b & [-> Ha] & H & _). change (lit ":") with [58%N]. cbn [app].
  now rewrite (indexOf_first _ _ b Ha), substringFrom_suffix.
Qed.

(** C2, as the loop has it.  Take a line that reaches the key-value rule
    outside a fenced block, and whose value does not hold a comma without any
    digit.  It gives the stat block with the given key and value exactly when:
    it has a colon, it does not start with [http], the key (the trimmed text
    before the first colon) is not empty and holds no space, and the value
    (the trimmed text behind that colon) is not empty and holds a digit.  So
    [packages: 9,080,774] is one stat block, and [Total packages: 9,080,774]
    is a text block. *)
Theorem stat_rule :
  (forall (st : PState) (line key value : list N),
     inCodeBlock st = false -> reachesStatRule line = true ->
     ~ commaOnlyValue line ->
     (step st line = addBlock st (Stat key value) <-> StatLineDigit line key value))
  /\ parseMarkdown (lit "packages: 9,080,774")
     = [ {| type := TContent; title := None;
            content := [Stat (lit "packages") (lit "9,080,774")] |} ]
  /\ parseMarkdown (lit "Total packages: 9,080,774")
     = [ {| type := TContent; title := None;
            content := [Text (lit "Total packages: 9,080,774")] |} ].
Proof.
  split; [|split; vm_compute; reflexivity].
  intros st line key value Hin Hr Hno.
  rewrite (stat_step_iff st line key value Hin Hr).
  split.
  - intros (a & b & Hcut & Hh & Hk & Hv & Hk1 & Hk2 & Hv1 & c & Hc & Hd).
    exists a, b. repeat split; try assumption; try apply Hcut.
    destruct (digit_or_none value) as [Hsome|Hnone]; [exact Hsome|].
    exfalso. apply Hno. exists a, b. rewrite <- Hv.
    destruct Hd as [Hd | ->]; [rewrite (Hnone c Hc) in Hd; discriminate|].
    repeat split; try assumption; apply Hcut.
  - intros (a & b & Hcut & Hh & Hk & Hv & Hk1 & Hk2 & Hv1 & c & Hc & Hd).
    exists a, b. repeat split; try assumption; try apply Hcut.
    exists c. split; [exact Hc | now left].
Qed.

Lemma stat_rule_witness :
  step init (lit "users: 50") = addBlock init (Stat (lit "users") (lit "50"))
  <-> StatLineDigit (lit "users: 50") (lit "users") (lit "50").
Proof.
  apply (proj1 stat_rule); [reflexivity | reflexivity |].
  intros H. apply commaOnlyValue_value in H. vm_compute in H.
  repeat (destruct H as [H|H]; [discriminate|]). exact H.
Defined.

(** C2 as worded fails: a value with a comma and no digit makes a stat
    block, and so does a key with a tab in it. *)
Lemma stat_rule_claimed_fails :
  (reachesStatRule (lit "note: a, b") = true
   /\ step init (lit "note: a, b") = addBlock init (Stat (lit "note") (lit "a, b"))
   /\ ~ ClaimedStatLine (lit "note: a, b") (lit "note") (lit "a, b"))
  /\ (reachesStatRule (lit "a" ++ [9%N] ++ lit "b: 5") = true
      /\ step init (lit "a" ++ [9%N] ++ lit "b: 5")
         = addBlock init (Stat (lit "a" ++ [9%N] ++ lit "b") (lit "5"))
      /\ ~ ClaimedStatLine (lit "a" ++ [9%N] ++ lit "b: 5")
                           (lit "a" ++ [9%N] ++ lit "b") (lit "5")).
Proof.
  split; (split; [reflexivity|]; split; [vm_compute; reflexivity|]).
  - intros (a & b & _ & _ & _ & _ & _ & _ & _ & c & Hc & Hd).
    cbn in Hc. repeat (destruct Hc as [<-|Hc]; [discriminate|]). exact Hc.
  - intros (a & b & _ & _ & _ & _ & _ & Hs & _).
    specialize (Hs 9%N). cbn in Hs. discriminate Hs. right. now left.
Qed.

(** ** The renderer: statements that add to [html] *)

Lemma fold_left_appends {A : Type} (f : list N -> A -> list N) (g : A -> list N) :
  (forall h x, f h x = h ++ g x) ->
  forall l html, fold_left f l html = html ++ concat (map g l).
Proof.
  intros Hf. induction l as [|x l IH]; intros html; cbn [fold_left map concat].
  - now rewrite app_nil_r.
  - now rewrite IH, Hf, <- app_assoc.
Qed.

Lemma appendTo_nil (r : Res (list N)) : appendTo [] r = r.
Proof. now destruct r. Qed.

Lemma forEachM_concatM {A : Type} (f : list N -> A -> Res (list N)) :
  (forall h x, f h x = appendTo h (f [] x)) ->
  forall l html, forEachM f l html = appendTo html (concatM (f []) l).
Proof.
  intros Hf. induction l as [|x l IH]; intros html; cbn [forEachM concatM].
  - cbn. now rewrite app_nil_r.
  - rewrite Hf. unfold appendTo at 1. destruct (f [] x) as [r|e]; cbn [bind]; [|reflexivity].
    rewrite IH. unfold appendTo. destruct (concatM (f []) l) as [rs|e]; cbn [bind];
      [|reflexivity].
    now rewrite app_assoc.
Qed.

Ltac assoc_app := repeat rewrite <- app_assoc; cbn [app]; try reflexivity.

Lemma statCard_appends (html : list N) (stat : list N * list N) :
  statCard html stat = appendTo html (statCard [] stat).
Proof.
  unfold statCard, appendTo. destruct stat as [key value].
  destruct (includes (lit "(") value && includes (lit "%)") value).
  - destruct (firstMatch percentAt value) as [g|]; cbn [group1 bind]; [|reflexivity].
    destruct (truthyOpt (Some g)); f_equal; assoc_app.
  - cbn [bind truthyOpt]. f_equal. assoc_app.
Qed.

Lemma topItem_appends (html text : list N) :
  topItem html text = appendTo html (topItem [] text).
Proof.
  unfold topItem, appendTo.
  destruct (map trim (split emdash text)) as [|name [|stats [|x l]]]; cbn [bind];
    try (now rewrite app_nil_r).
  destruct (includes (lit "](") name).
  - destruct (firstMatch bracketAt name) as [d|]; cbn [group1 bind]; [|reflexivity].
    destruct (firstMatch parenAt name) as [h|]; cbn [group1 bind]; [|reflexivity].
    destruct (truthyOpt (Some h)); f_equal; assoc_app.
  - cbn [bind truthyOpt]. f_equal. assoc_app.
Qed.

Lemma plainItem_appends (html text : list N) :
  plainItem html text = appendTo html (plainItem [] text).
Proof. unfold plainItem, appendTo. cbn [bind]. f_equal. Qed.

Lemma statSection_appends (stats : list (list N * list N)) (html : list N) :
  statSection stats html = appendTo html (statsHtml stats).
Proof.
  unfold statSection, statsHtml. destruct stats as [|s stats].
  - cbn. now rewrite app_nil_r.
  - cbn [length Nat.ltb Nat.leb].
    rewrite (forEachM_concatM statCard statCard_appends).
    unfold appendTo. destruct (concatM (statCard []) (s :: stats)); cbn [bind];
      [|reflexivity].
    f_equal. assoc_app.
Qed.

Lemma listSection_appends (listItems : list (list N)) (html : list N) :
  listSection listItems html = appendTo html (listHtml listItems).
Proof.
  unfold listSection, listHtml, usesGrid, gridList, bulletList.
  destruct listItems as [|t l].
  - cbn. now rewrite app_nil_r.
  - cbn [length Nat.ltb Nat.leb].
    match goal with
    | |- context [if ?c && ?d then _ else _] => destruct (c && d)
    end.
    + rewrite (forEachM_concatM topItem topItem_appends).
      unfold appendTo. destruct (concatM (topItem []) (t :: l)); cbn [bind];
        [|reflexivity].
      f_equal. assoc_app.
    + rewrite (forEachM_concatM plainItem plainItem_appends).
      unfold appendTo. destruct (concatM (plainItem []) (t :: l)); cbn [bind];
        [|reflexivity].
      f_equal. assoc_app.
Qed.

(** ** The renderer: one slide *)

Lemma terminal_flag (c : list Block) :
  existsb (fun b => match b with
                    | Code l _ => eqs l (lit "terminal")
                    | _ => false
                    end) c
  = existsb (fun p => eqs (fst p) (lit "terminal")) (codeBlocksOf c).
Proof.
  induction c as [|b c IH]; [reflexivity|].
  destruct b; cbn [existsb codeBlocksOf flat_map app fst orb]; rewrite ?IH; reflexivity.
Qed.

Lemma codeBlock_appends (html : list N) (item : list N * list N) :
  codeBlock html item = html ++ codeHtml item.
Proof. destruct item. reflexivity. Qed.

Lemma image_appends (html : list N) (item : list N * list N) :
  (let '(alt, src) := item in
   html ++ tpl "            <img src=~" ++ src ++ tpl "~ alt=~" ++ alt
        ++ tpl "~ class=~slide-image~>" ++ nl)
  = html ++ imageHtml item.
Proof. destruct item. reflexivity. Qed.

Section OneSlide.

Variable toLowerCase : list N -> list N.

Lemma slideHTML_grouped (slidesLength : nat) (slide : Slide) (index : nat) :
  slideHTML toLowerCase slidesLength slide index =
    st <- statsHtml (statsOf (content slide)) ;;
    li <- listHtml (listItemsOf (content slide)) ;;
    Ok (slideOpen toLowerCase (type slide) (title slide)
                  (textsOf (content slide)) (codeBlocksOf (content slide))
        ++ concat (map subtitleHtml (subtitlesOf (content slide)))
        ++ st ++ li
        ++ concat (map textHtml (textsOf (content slide)))
        ++ concat (map codeHtml (codeBlocksOf (content slide)))
        ++ concat (map imageHtml (imagesOf (content slide)))
        ++ slideClose slidesLength index).
Proof.
  unfold slideHTML. cbv zeta.
  rewrite statSection_appends. unfold appendTo at 1.
  destruct (statsHtml (statsOf (content slide))) as [st|e]; cbn [bind]; [|reflexivity].
  rewrite listSection_appends. unfold appendTo at 1.
  destruct (listHtml (listItemsOf (content slide))) as [li|e]; cbn [bind]; [|reflexivity].
  f_equal.
  rewrite (fold_left_appends _ imageHtml image_appends).
  rewrite (fold_left_appends _ codeHtml codeBlock_appends).
  rewrite (fold_left_appends _ textHtml (fun h x => eq_refl)).
  rewrite (fold_left_appends _ subtitleHtml (fun h x => eq_refl)).
  unfold slideOpen, slideClose. rewrite terminal_flag.
  destruct (title slide) as [t|]; [destruct (truthy t)|];
    destruct (type slide);
    try destruct (0 <? length (textsOf (content slide)))%nat;
    assoc_app.
Qed.

End OneSlide.

(** The arrays the renderer groups the blocks into are the [filter]s of the
    content by category, so each keeps the order of insertion. *)
Lemma groups_are_filters (c : list Block) :
  map Subtitle (subtitlesOf c) = filter (sameCategory CSubtitle) c
  /\ map (fun p => Stat (fst p) (snd p)) (statsOf c) = filter (sameCategory CStat) c
  /\ map ListItem (listItemsOf c) = filter (sameCategory CListItem) c
  /\ map Text (textsOf c) = filter (sameCategory CText) c
  /\ map (fun p => Code (fst p) (snd p)) (codeBlocksOf c) = filter (sameCategory CCode) c
  /\ map (fun p => Image (fst p) (snd p)) (imagesOf c) = filter (sameCategory CImage) c.
Proof.
  induction c as [|b c (I1 & I2 & I3 & I4 & I5 & I6)]; [repeat split|].
  unfold subtitlesOf, statsOf, listItemsOf, textsOf, codeBlocksOf, imagesOf in *.
  destruct b; cbn [flat_map filter sameCategory categoryOf app map fst snd];
    rewrite ?I1, ?I2, ?I3, ?I4, ?I5, ?I6; repeat split.
Qed.

Lemma map_injective {A B : Type} (f : A -> B) :
  (forall x y, f x = f y -> x = y) ->
  forall l l', map f l = map f l' -> l = l'.
Proof.
  intros Hf. induction l as [|x l IH]; destruct l' as [|y l']; cbn;
    try discriminate; [reflexivity|].
  intros [= Hx Hl]. f_equal; auto.
Qed.

Lemma same_groups (c1 c2 : list Block) :
  (forall k, filter (sameCategory k) c1 = filter (sameCategory k) c2) ->
  subtitlesOf c1 = subtitlesOf c2 /\ statsOf c1 = statsOf c2
  /\ listItemsOf c1 = listItemsOf c2 /\ textsOf c1 = textsOf c2
  /\ codeBlocksOf c1 = codeBlocksOf c2 /\ imagesOf c1 = imagesOf c2.
Proof.
  intros H.
  destruct (groups_are_filters c1) as (A1 & A2 & A3 & A4 & A5 & A6).
  destruct (groups_are_filters c2) as (B1 & B2 & B3 & B4 & B5 & B6).
  repeat split.
  - apply (map_injective Subtitle); [congruence|]. rewrite A1, B1. apply H.
  - apply (map_injective (fun p => Stat (fst p) (snd p))).
    + intros [] []; cbn; congruence.
    + rewrite A2, B2. apply H.
  - apply (map_injective ListItem); [congruence|]. rewrite A3, B3. apply H.
  - apply (map_injective Text); [congruence|]. rewrite A4, B4. apply H.
  - apply (map_injective (fun p => Code (fst p) (snd p))).
    + intros [] []; cbn; congruence.
    + rewrite A5, B5. apply H.
  - apply (map_injective (fun p => Image (fst p) (snd p))).
    + intros [] []; cbn; congruence.
    + rewrite A6, B6. apply H.
Qed.

(** ** The renderer: the layout of the list items *)

Lemma bulletList_ok (listItems : list (list N)) :
  exists rs, bulletList listItems
             = Ok (lit "            <ul>" ++ nl ++ rs ++ lit "            </ul>" ++ nl).
Proof.
  unfold bulletList.
  assert (H : exists rs, concatM (plainItem []) listItems = Ok rs).
  { induction listItems as [|t l [rs IH]]; [now exists []|].
    cbn [concatM]. rewrite IH. unfold plainItem. cbn [bind]. eauto. }
  destruct H as [rs ->]. cbn [bind]. eauto.
Qed.

Lemma gridList_differs (listItems : list (list N)) :
  gridList listItems <> bulletList listItems.
Proof.
  destruct (bulletList_ok listItems) as [rs ->]. unfold gridList.
  destruct (concatM (topItem []) listItems) as [gs|e]; cbn [bind]; [|discriminate].
  intros H.
  apply (f_equal (fun r => match r with Ok s => nth 13 s 0%N | Throw _ => 0%N end)) in H.
  vm_compute in H. discriminate H.
Qed.

Lemma appendTo_inj (html : list N) (r1 r2 : Res (list N)) :
  appendTo html r1 = appendTo html r2 -> r1 = r2.
Proof.
  unfold appendTo. destruct r1, r2; cbn [bind]; intros [= H]; try congruence.
  apply app_inv_head in H. congruence.
Qed.

Lemma listSection_layout (listItems : list (list N)) (html : list N) :
  listItems <> [] ->
  listSection listItems html =
    appendTo html (if usesGrid listItems then gridList listItems
                   else bulletList listItems).
Proof.
  intros Hne. rewrite listSection_appends. unfold listHtml.
  destruct listItems; [contradiction | reflexivity].
Qed.

Lemma forallb_existsb {A : Type} (p : A -> bool) (l : list A) :
  l <> [] -> forallb p l = true -> existsb p l = true.
Proof.
  destruct l as [|x l]; [contradiction|]. cbn. intros _ H.
  apply andb_true_iff in H. destruct H as [-> _]. reflexivity.
Qed.

(** C3, as the renderer has it.  A slide's list items use the grid layout
    exactly when at least one of them holds an em-dash and a digit and there
    are at most 6 of them, and the plain bulleted list otherwise.  Six items
    that all hold an em-dash and a digit make a grid; seven items make a
    bulleted list. *)
Theorem ranked_grid_rule :
  (forall (listItems : list (list N)) (html : list N),
     listItems <> [] ->
     (listSection listItems html = appendTo html (gridList listItems)
      <-> usesGrid listItems = true)
     /\ (listSection listItems html = appendTo html (bulletList listItems)
         <-> usesGrid listItems = false))
  /\ (forall (listItems : list (list N)) (html : list N),
        forallb looksRanked listItems = true -> length listItems = 6%nat ->
        listSection listItems html = appendTo html (gridList listItems))
  /\ (forall (listItems : list (list N)) (html : list N),
        length listItems = 7%nat ->
        listSection listItems html = appendTo html (bulletList listItems)).
Proof.
  split; [|split].
  - intros l html Hne. rewrite (listSection_layout l html Hne).
    destruct (usesGrid l); (split; split; intros H);
      try reflexivity; try discriminate H; apply appendTo_inj in H; exfalso.
    + exact (gridList_differs _ H).
    + symmetry in H. exact (gridList_differs _ H).
  - intros l html Hall Hlen.
    assert (Hne : l <> []) by (intros ->; discriminate).
    rewrite (listSection_layout l html Hne). unfold usesGrid.
    rewrite (forallb_existsb _ _ Hne Hall), Hlen. reflexivity.
  - intros l html Hlen.
    assert (Hne : l <> []) by (intros ->; discriminate).
    rewrite (listSection_layout l html Hne). unfold usesGrid.
    rewrite Hlen, andb_false_r. reflexivity.
Qed.

Lemma ranked_grid_rule_witness :
  let item := lit "npm " ++ [emdash] ++ lit " 3,000 packages" in
  listSection [item; item; item; item; item; item] []
  = appendTo [] (gridList [item; item; item; item; item; item])
  /\ listSection [item; item; item; item; item; item; item] []
     = appendTo [] (bulletList [item; item; item; item; item; item; item]).
Proof.
  split.
  - apply (proj1 (proj2 ranked_grid_rule)); reflexivity.
  - apply (proj2 (proj2 ranked_grid_rule)); reflexivity.
Defined.

(** C3 as worded fails: with one item that holds an em-dash and a digit and
    one that does not, not all items look ranked, and the grid layout is
    used all the same. *)
Lemma ranked_grid_claimed_fails :
  let items := [lit "npm " ++ [emdash] ++ lit " 3,000 packages"; lit "and the rest"] in
  claimedGrid items = false
  /\ listSection items [] = gridList items
  /\ listSection items [] <> bulletList items.
Proof.
  cbv zeta. split; [reflexivity|].
  assert (E : listSection [lit "npm " ++ [emdash] ++ lit " 3,000 packages";
                           lit "and the rest"] []
              = gridList [lit "npm " ++ [emdash] ++ lit " 3,000 packages";
                          lit "and the rest"]).
  { rewrite listSection_layout by discriminate.
    replace (usesGrid _) with true by reflexivity. apply appendTo_nil. }
  split; [exact E|]. rewrite E. apply gridList_differs.
Qed.

(** ** The renderer: code blocks *)

Lemma escapeHtml_chars (text : list N) :
  escapeHtml text = flat_map escapeChar text.
Proof.
  unfold escapeHtml. induction text as [|c t IH]; [reflexivity|].
  cbn [replaceAll flat_map]. rewrite <- IH. unfold escapeChar, isReserved.
  destruct (N.eqb_spec c 38) as [->|]; [reflexivity|].
  destruct (N.eqb_spec c 60) as [->|]; [reflexivity|].
  destruct (N.eqb_spec c 62) as [->|]; [reflexivity|].
  destruct (N.eqb_spec c 34) as [->|]; [reflexivity|].
  destruct (N.eqb_spec c 39) as [->|]; reflexivity.
Qed.





Lemma startsWith_prefix (p s : list N) :
  startsWith p s = true -> exists r, s = p ++ r.
Proof.
  revert s. induction p as [|x p IH]; intros s H; [now exists s|].
  destruct s as [|y s]; [discriminate|]. cbn [startsWith] in H.
  apply andb_true_iff in H. destruct H as [Hx Hp]. apply N.eqb_eq in Hx. subst y.
  destruct (IH s Hp) as [r ->]. now exists r.
Qed.









Lemma split_chars (sep : N) (s w : list N) (x : N) :
  In w (split sep s) -> In x w -> In x s.
Proof.
  revert w. induction s as [|c s IH]; intros w Hw Hx; cbn [split] in Hw.
  - destruct Hw as [<-|[]]. contradiction.
  - destruct (N.eqb c sep).
    + destruct Hw as [<-|Hw]; [contradiction|]. right. eauto.
    + destruct (split sep s) as [|w0 ws] eqn:E.
      * destruct Hw as [<-|[]]. destruct Hx as [<-|[]]. now left.
      * destruct Hw as [<-|Hw].
        -- destruct Hx as [<-|Hx]; [now left|]. right. apply (IH w0); [now left | exact Hx].
        -- right. apply (IH w); [now right | exact Hx].
Qed.



Lemma split_app_plain (sep : N) (a s : list N) :
  (forall x, In x a -> x <> sep) ->
  split sep (a ++ s) =
    match split sep s with
    | w :: ws => (a ++ w) :: ws
    | [] => [a]
    end.
Proof.
  induction a as [|c a IH]; intros H.
  - cbn [app]. destruct (split sep s) eqn:E; [|reflexivity].
    destruct s as [|y s]; cbn [split] in E; [discriminate|].
    destruct (N.eqb y sep); [discriminate|]. destruct (split sep s); discriminate.
  - cbn [app split]. destruct (N.eqb_spec c sep) as [E|_].
    { exfalso. apply (H c); [now left | exact E]. }
    rewrite IH by (intros x Hx; apply H; now right).
    destruct (split sep s); reflexivity.
Qed.

Lemma escapeChar_no_newline (c x : N) :
  c <> newline -> In x (escapeChar c) -> x <> newline.
Proof.
  unfold escapeChar, newline. intros Hc.
  destruct (N.eqb_spec c 38);
    [|destruct (N.eqb_spec c 60);
      [|destruct (N.eqb_spec c 62);
        [|destruct (N.eqb_spec c 34); [|destruct (N.eqb_spec c 39)]]]];
    cbn; intros H;
    repeat (destruct H as [<-|H]; [discriminate || assumption|]);
    contradiction.
Qed.

Lemma escapeHtml_cons (c : N) (t : list N) :
  escapeHtml (c :: t) = escapeChar c ++ escapeHtml t.
Proof. now rewrite !escapeHtml_chars. Qed.

Lemma split_escapeHtml (text : list N) :
  split newline (escapeHtml text) = map escapeHtml (split newline text).
Proof.
  induction text as [|c t IH]; [reflexivity|].
  rewrite escapeHtml_cons. cbn [split].
  destruct (N.eqb_spec c newline) as [->|Hc].
  - change (escapeChar newline) with [newline]. cbn [app split].
    rewrite N.eqb_refl, IH. reflexivity.
  - rewrite split_app_plain by (intros x; apply escapeChar_no_newline; exact Hc).
    rewrite IH. destruct (split newline t) as [|w ws]; cbn [map].
    + rewrite escapeHtml_cons. change (escapeHtml []) with (@nil N).
      now rewrite app_nil_r.
    + now rewrite escapeHtml_cons.
Qed.

Lemma startsWith_dollar_escapeHtml (line : list N) :
  startsWith (lit "$") (escapeHtml line) = startsWith (lit "$") line.
Proof.
  destruct line as [|c t]; [reflexivity|]. rewrite escapeHtml_cons.
  change (lit "$") with [36%N]. unfold escapeChar.
  destruct (N.eqb_spec c 38) as [->|]; [reflexivity|].
  destruct (N.eqb_spec c 60) as [->|]; [reflexivity|].
  destruct (N.eqb_spec c 62) as [->|]; [reflexivity|].
  destruct (N.eqb_spec c 34) as [->|]; [reflexivity|].
  destruct (N.eqb_spec c 39) as [->|]; reflexivity.
Qed.

Lemma terminal_lines (text : list N) :
  codeTextOf (lit "terminal") text = join nl (map promptLine (split newline text)).
Proof.
  unfold codeTextOf. replace (eqs (lit "terminal") (lit "terminal")) with true
    by reflexivity.
  rewrite split_escapeHtml, map_map. f_equal. apply map_ext. intros line.
  unfold promptLine. now rewrite startsWith_dollar_escapeHtml.
Qed.







(** ** The renderer: the items of the ranked grid *)

Lemma split_plain (sep : N) (s : list N) :
  ~ In sep s -> split sep s = [s].
Proof.
  induction s as [|c s IH]; intros H; [reflexivity|].
  cbn [split]. destruct (N.eqb_spec c sep) as [E|_]; [exfalso; apply H; now left|].
  rewrite IH by (intros Hs; apply H; now right). reflexivity.
Qed.

Lemma split_at_first (sep : N) (a b : list N) :
  ~ In sep a -> split sep (a ++ sep :: b) = a :: split sep b.
Proof.
  intros H. rewrite split_app_plain by (intros x Hx ->; contradiction).
  cbn [split]. rewrite N.eqb_refl. now rewrite app_nil_r.
Qed.

Lemma split_length (sep : N) (s : list N) :
  length (split sep s) = S (countChar sep s).
Proof.
  unfold countChar. induction s as [|c s IH]; [reflexivity|].
  cbn [split filter]. rewrite (N.eqb_sym sep c).
  destruct (N.eqb c sep); cbn [length].
  - now rewrite IH.
  - destruct (split sep s); [discriminate IH | exact IH].
Qed.

Lemma topItem_omits (html text : list N) :
  countChar emdash text <> 1%nat -> topItem html text = Ok html.
Proof.
  intros H. unfold topItem.
  assert (L : length (map trim (split emdash text)) <> 2%nat)
    by (rewrite length_map, split_length; lia).
  destruct (map trim (split emdash text)) as [|n [|s [|x l]]]; try reflexivity.
  now contradiction L.
Qed.

Lemma topItem_parts (text a b : list N) :
  oneDash text a b -> map trim (split emdash text) = [trim a; trim b].
Proof.
  intros (-> & Ha & Hb). cbn [app].
  now rewrite split_at_first, split_plain.
Qed.

Lemma includes_startsWith (p s : list N) :
  startsWith p s = true -> includes p s = true.
Proof. destruct s; cbn [includes]; intros ->; reflexivity. Qed.

Lemma includes_app_r (p a s : list N) :
  includes p s = true -> includes p (a ++ s) = true.
Proof.
  intros H. induction a as [|c a IH]; [exact H|].
  cbn [app includes]. rewrite IH. apply orb_true_r.
Qed.

Lemma startsWith_app (p s : list N) : startsWith p (p ++ s) = true.
Proof.
  induction p as [|c p IH]; [now destruct s|].
  cbn [app startsWith]. now rewrite N.eqb_refl, IH.
Qed.

Lemma takeWhile_stop (p : N -> bool) (a r : list N) :
  (forall x, In x a -> p x = true) -> stopsAt p r -> takeWhile p (a ++ r) = a.
Proof.
  intros Ha Hr. induction a as [|c a IH]; cbn [app takeWhile].
  - destruct r as [|y r]; [reflexivity|]. cbn in Hr. cbn [takeWhile]. now rewrite Hr.
  - rewrite (Ha c) by now left. rewrite IH; [reflexivity|].
    intros x Hx. apply Ha. now right.
Qed.

Lemma skipn_length_app (a r : list N) : skipn (length a) (a ++ r) = r.
Proof. now rewrite skipn_app, skipn_all, Nat.sub_diag. Qed.

Lemma other_chars (c : N) (a : list N) :
  ~ In c a -> forall x, In x a -> negb (x =? c)%N = true.
Proof.
  intros H x Hx. destruct (N.eqb_spec x c) as [->|]; [contradiction | reflexivity].
Qed.

Lemma bracketAt_link (d h : list N) :
  d <> [] -> ~ In 93%N d -> bracketAt (markdownLink d h) = Some d.
Proof.
  intros Hd Hn. unfold bracketAt, markdownLink.
  change (lit "[" ++ d ++ lit "](" ++ h ++ lit ")")
    with (91%N :: (d ++ 93%N :: 40%N :: h ++ [41%N])).
  cbn [startsWith lit N.eqb andb skipn].
  replace (startsWith (lit "[") (91%N :: d ++ 93%N :: 40%N :: h ++ [41%N]))
    with true by reflexivity.
  rewrite takeWhile_stop; [| now apply other_chars | reflexivity].
  rewrite skipn_length_app. destruct d; [contradiction | reflexivity].
Qed.

Lemma firstMatch_here {A : Type} (m : list N -> option A) (s : list N) (r : A) :
  m s = Some r -> firstMatch m s = Some r.
Proof. intros H. destruct s; cbn [firstMatch]; now rewrite H. Qed.

Lemma firstMatch_parenAt_skip (pre s : list N) :
  ~ In 40%N pre -> firstMatch parenAt (pre ++ s) = firstMatch parenAt s.
Proof.
  induction pre as [|c pre IH]; intros H; [reflexivity|].
  cbn [app firstMatch].
  assert (E : parenAt (c :: pre ++ s) = None).
  { unfold parenAt. change (lit "(") with [40%N]. cbn [startsWith].
    destruct (N.eqb_spec 40 c) as [<-|_]; [exfalso; apply H; now left | reflexivity]. }
  rewrite E. apply IH. intros Hp. apply H. now right.
Qed.

Lemma parenAt_link (h : list N) :
  h <> [] -> ~ In 41%N h -> parenAt (40%N :: h ++ [41%N]) = Some h.
Proof.
  intros Hh Hn. unfold parenAt.
  replace (startsWith (lit "(") (40%N :: h ++ [41%N])) with true by reflexivity.
  cbn [skipn].
  rewrite takeWhile_stop; [| now apply other_chars | reflexivity].
  rewrite skipn_length_app. destruct h; [contradiction | reflexivity].
Qed.

Lemma link_groups (d h : list N) :
  d <> [] -> ~ In 93%N d -> ~ In 40%N d -> h <> [] -> ~ In 41%N h ->
  includes (lit "](") (markdownLink d h) = true
  /\ firstMatch bracketAt (markdownLink d h) = Some d
  /\ firstMatch parenAt (markdownLink d h) = Some h.
Proof.
  intros Hd Hd1 Hd2 Hh Hh1. split; [|split].
  - unfold markdownLink.
    replace (lit "[" ++ d ++ lit "](" ++ h ++ lit ")")
      with ((lit "[" ++ d) ++ lit "](" ++ (h ++ lit ")"))
      by (now rewrite <- !app_assoc).
    apply includes_app_r, includes_startsWith, startsWith_app.
  - apply firstMatch_here, bracketAt_link; assumption.
  - unfold markdownLink.
    replace (lit "[" ++ d ++ lit "](" ++ h ++ lit ")")
      with ((91%N :: d ++ [93%N]) ++ (40%N :: h ++ [41%N]))
      by (cbn [app lit]; rewrite <- app_assoc; reflexivity).
    rewrite firstMatch_parenAt_skip.
    + apply firstMatch_here, parenAt_link; assumption.
    + intros [E|H]; [discriminate|]. apply in_app_or in H.
      destruct H as [H|[E|[]]]; [contradiction | discriminate].
Qed.

Lemma replaceAll_skip (m : list N -> option (nat * list N)) (n : nat) (s : list N) :
  replaceAll m n s = replaceAll m 0 (skipn n s).
Proof.
  revert n. induction s as [|c s IH]; intros [|n]; try reflexivity.
  cbn [replaceAll skipn]. apply IH.
Qed.

Lemma replaceAll_match (m : list N -> option (nat * list N))
    (x rest r : list N) :
  x <> [] -> m (x ++ rest) = Some (length x, r) ->
  replaceAll m 0 (x ++ rest) = r ++ replaceAll m 0 rest.
Proof.
  intros Hx Hm. destruct x as [|c x]; [contradiction|].
  cbn [app replaceAll]. cbn [app] in Hm. rewrite Hm. cbn [length Nat.pred].
  now rewrite replaceAll_skip, skipn_length_app.
Qed.

Lemma stopsAt_weaken (p q : N -> bool) (s : list N) :
  (forall c, q c = false -> p c = false) -> stopsAt q s -> stopsAt p s.
Proof. intros H. destruct s; cbn; auto. Qed.

Lemma emphasize_other (c : N) (s : list N) :
  isDigit c = false -> emphasizeNumbers (c :: s) = c :: emphasizeNumbers s.
Proof.
  intros Hc. unfold emphasizeNumbers. cbn [replaceAll].
  unfold numberAt. cbn [takeWhile]. rewrite Hc. reflexivity.
Qed.

Lemma emphasize_number (d r : list N) :
  d <> [] -> (forall x, In x d -> isDigit x = true) ->
  stopsAt (fun c => isDigit c || (c =? 44)%N) r ->
  emphasizeNumbers (d ++ r)
  = lit "<strong>" ++ d ++ lit "</strong>" ++ emphasizeNumbers r.
Proof.
  intros Hd Hall Hr. unfold emphasizeNumbers.
  assert (Hr1 : stopsAt isDigit r).
  { apply (stopsAt_weaken _ _ _ (fun c H => proj1 (orb_false_elim _ _ H)) Hr). }
  assert (Hr2 : startsWith (lit ",") r = false).
  { destruct r as [|y r]; [reflexivity|]. cbn in Hr.
    apply orb_false_elim in Hr. destruct Hr as [_ Hy].
    change (lit ",") with [44%N]. cbn [startsWith]. rewrite N.eqb_sym, Hy. reflexivity. }
  rewrite (replaceAll_match numberAt d r (lit "<strong>" ++ d ++ lit "</strong>") Hd).
  - now rewrite <- !app_assoc.
  - unfold numberAt. rewrite (takeWhile_stop _ _ _ Hall Hr1), skipn_length_app, Hr2.
    cbn [length skipn].
    replace (takeWhile isDigit r) with (@nil N)
      by (destruct r as [|y r]; [reflexivity | cbn in Hr1; cbn; now rewrite Hr1]).
    cbn [app]. rewrite app_nil_r. destruct d; [contradiction | reflexivity].
Qed.

Lemma emphasize_number_comma (d1 d2 r : list N) :
  d1 <> [] -> (forall x, In x d1 -> isDigit x = true) ->
  (forall x, In x d2 -> isDigit x = true) -> stopsAt isDigit r ->
  emphasizeNumbers (d1 ++ lit "," ++ d2 ++ r)
  = lit "<strong>" ++ d1 ++ lit "," ++ d2 ++ lit "</strong>" ++ emphasizeNumbers r.
Proof.
  intros Hd H1 H2 Hr. unfold emphasizeNumbers.
  replace (d1 ++ lit "," ++ d2 ++ r) with ((d1 ++ lit "," ++ d2) ++ r)
    by (now rewrite <- !app_assoc).
  rewrite (replaceAll_match numberAt (d1 ++ lit "," ++ d2) r
             (lit "<strong>" ++ (d1 ++ lit "," ++ d2) ++ lit "</strong>")).
  - now rewrite <- !app_assoc.
  - destruct d1; [contradiction | discriminate].
  - unfold numberAt.
    replace ((d1 ++ lit "," ++ d2) ++ r) with (d1 ++ (lit "," ++ d2 ++ r))
      by (now rewrite <- !app_assoc).
    rewrite (takeWhile_stop isDigit d1 _ H1) by reflexivity.
    rewrite skipn_length_app.
    replace (startsWith (lit ",") (lit "," ++ d2 ++ r)) with true by reflexivity.
    change (skipn (length (lit ",")) (lit "," ++ d2 ++ r)) with (d2 ++ r).
    rewrite (takeWhile_stop isDigit d2 r H2 Hr).
    destruct d1; [contradiction | reflexivity].
Qed.

Lemma topItem_link (html text a b d h : list N) :
  oneDash text a b -> trim a = markdownLink d h ->
  d <> [] -> ~ In 93%N d -> ~ In 40%N d -> h <> [] -> ~ In 41%N h ->
  topItem html text = Ok (html ++ topItemHtml (linkName h d) (trim b)).
Proof.
  intros Hone Hname Hd Hd1 Hd2 Hh Hh1. unfold topItem.
  rewrite (topItem_parts _ _ _ Hone), Hname.
  destruct (link_groups d h Hd Hd1 Hd2 Hh Hh1) as (-> & -> & ->).
  cbn [group1 bind truthyOpt]. apply truthy_iff in Hh. rewrite Hh.
  f_equal. unfold topItemHtml, linkName, emphasizeNumbers. assoc_app.
Qed.

Lemma topItem_plain (html text a b : list N) :
  oneDash text a b -> includes (lit "](") (trim a) = false ->
  topItem html text = Ok (html ++ topItemHtml (plainName (trim a)) (trim b)).
Proof.
  intros Hone Hname. unfold topItem.
  rewrite (topItem_parts _ _ _ Hone), Hname.
  cbn [bind truthyOpt]. f_equal.
  unfold topItemHtml, plainName, emphasizeNumbers. assoc_app.
Qed.

(** C7, as the renderer has it.  In the grid an item is rendered only when
    its text holds exactly one em-dash; an item with none or with several
    adds nothing.  The name is the trimmed text before the em-dash and the
    stats part the trimmed text behind it.  A name that is a markdown link
    is rendered as a hyperlink with its display text and its target; a name
    without [](] is rendered as plain emphasized text.  In the stats part
    every match of digits, an optional comma and further digits is wrapped
    in [<strong>], and the other code units stay. *)
Theorem ranked_item_rendering :
  (forall html text : list N,
     countChar emdash text <> 1%nat -> topItem html text = Ok html)
  /\ (forall html text a b d h : list N,
        oneDash text a b -> trim a = markdownLink d h ->
        d <> [] -> ~ In 93%N d -> ~ In 40%N d -> h <> [] -> ~ In 41%N h ->
        topItem html text = Ok (html ++ topItemHtml (linkName h d) (trim b)))
  /\ (forall html text a b : list N,
        oneDash text a b -> includes (lit "](") (trim a) = false ->
        topItem html text = Ok (html ++ topItemHtml (plainName (trim a)) (trim b)))
  /\ (forall (c : N) (s : list N),
        isDigit c = false -> emphasizeNumbers (c :: s) = c :: emphasizeNumbers s)
  /\ (forall d r : list N,
        d <> [] -> (forall x, In x d -> isDigit x = true) ->
        stopsAt (fun c => isDigit c || (c =? 44)%N) r ->
        emphasizeNumbers (d ++ r)
        = lit "<strong>" ++ d ++ lit "</strong>" ++ emphasizeNumbers r)
  /\ (forall d1 d2 r : list N,
        d1 <> [] -> (forall x, In x d1 -> isDigit x = true) ->
        (forall x, In x d2 -> isDigit x = true) -> stopsAt isDigit r ->
        emphasizeNumbers (d1 ++ lit "," ++ d2 ++ r)
        = lit "<strong>" ++ d1 ++ lit "," ++ d2 ++ lit "</strong>"
          ++ emphasizeNumbers r).
Proof.
  split; [exact topItem_omits|].
  split; [exact topItem_link|].
  split; [exact topItem_plain|].
  split; [exact emphasize_other|].
  split; [exact emphasize_number | exact emphasize_number_comma].
Qed.

Lemma ranked_item_rendering_witness :
  topItem [] (lit "[npm](https://npmjs.com) " ++ [emdash] ++ lit " 3,000 packages")
  = Ok (topItemHtml (linkName (lit "https://npmjs.com") (lit "npm"))
                    (lit "3,000 packages"))
  /\ emphasizeNumbers (lit "3,000 packages")
     = lit "<strong>3,000</strong> packages".
Proof.
  split.
  - apply (proj1 (proj2 ranked_item_rendering) []
             (lit "[npm](https://npmjs.com) " ++ [emdash] ++ lit " 3,000 packages")
             (lit "[npm](https://npmjs.com) ") (lit " 3,000 packages")
             (lit "npm") (lit "https://npmjs.com")).
    + split; [reflexivity|].
      split; cbn; intros H; repeat (destruct H as [H|H]; [discriminate|]); exact H.
    + reflexivity.
    + discriminate.
    + cbn; intros H; repeat (destruct H as [H|H]; [discriminate|]); exact H.
    + cbn; intros H; repeat (destruct H as [H|H]; [discriminate|]); exact H.
    + discriminate.
    + cbn; intros H; repeat (destruct H as [H|H]; [discriminate|]); exact H.
  - reflexivity.
Defined.

(** C7 as worded fails: an item with two em-dashes and a digit is not cut at
    its first em-dash and rendered; in the grid it adds nothing. *)
Lemma ranked_item_claimed_fails :
  let text := lit "npm " ++ [emdash] ++ lit " registry " ++ [emdash] ++ lit " 3,000" in
  looksRanked text = true
  /\ cutAtFirstDash text
     = Some (lit "npm", lit "registry " ++ [emdash] ++ lit " 3,000")
  /\ topItem [] text = Ok []
  /\ listSection [text] []
     = Ok (tpl "            <div class=~top-list~>" ++ nl
           ++ lit "            </div>" ++ nl).
Proof.
  cbv zeta. repeat split; vm_compute; reflexivity.
Qed.

(** ** The renderer: exceptions *)

Lemma statCard_throws (html key value : list N) :
  includes (lit "(") value = true -> includes (lit "%)") value = true ->
  firstMatch percentAt value = None ->
  statCard html (key, value) = Throw TypeError.
Proof.
  intros H1 H2 H3. unfold statCard. rewrite H1, H2, H3. reflexivity.
Qed.

Lemma statCard_ok (html key value : list N) :
  includes (lit "(") value && includes (lit "%)") value = false ->
  exists r, statCard html (key, value) = Ok (html ++ r).
Proof.
  intros H. rewrite statCard_appends. unfold statCard. rewrite H.
  cbn [bind truthyOpt appendTo]. eauto.
Qed.

Lemma topItem_throws (html text a b : list N) :
  oneDash text a b -> includes (lit "](") (trim a) = true ->
  firstMatch bracketAt (trim a) = None ->
  topItem html text = Throw TypeError.
Proof.
  intros Hone H1 H2. unfold topItem.
  rewrite (topItem_parts _ _ _ Hone), H1, H2. reflexivity.
Qed.

(** C8.  Rendering is not total.  The stat line [cpu: 5 (high%)] parses to a
    stat block whose value holds an opening parenthesis and a percent sign
    before a closing one, but no percentage in parentheses: the renderer reads
    group 1 of a match that failed, and throws.  A list item of the grid whose
    name holds [](] and no bracketed text makes it throw the same way. *)
Theorem rendering_throws (toLowerCase : list N -> list N)
    (docHead docMid docTail : list N) (now : N) :
  parseMarkdown (lit "cpu: 5 (high%)")
  = [ {| type := TContent; title := None;
         content := [Stat (lit "cpu") (lit "5 (high%)")] |} ]
  /\ generateHTML toLowerCase docHead docMid docTail now
       (parseMarkdown (lit "cpu: 5 (high%)")) = Throw TypeError
  /\ parseMarkdown (lit "- ](x) " ++ [emdash] ++ lit " 5")
     = [ {| type := TContent; title := None;
            content := [ListItem (lit "](x) " ++ [emdash] ++ lit " 5")] |} ]
  /\ generateHTML toLowerCase docHead docMid docTail now
       (parseMarkdown (lit "- ](x) " ++ [emdash] ++ lit " 5")) = Throw TypeError.
Proof.
  repeat split; vm_compute; reflexivity.
Qed.

(** ** The single-shot run *)

Section SingleShot.

Variable toLowerCase : list N -> list N.
Variables docHead docMid docTail : list N.
Variable FS : Type.
Variable readFileSync : FS -> list N -> Res (list N).
Variable writeFileSync : FS -> list N -> list N -> FS * Res unit.

Let gen := generateSlides toLowerCase docHead docMid docTail readFileSync writeFileSync.
Let once := runOnce toLowerCase docHead docMid docTail readFileSync writeFileSync.
Let render := generateHTML toLowerCase docHead docMid docTail.

Lemma read_failure (w : World FS) (e : Exn) :
  readFileSync (fs w) MARKDOWN_FILE = Throw e ->
  gen w = (false, consoleError w (lit "Error generating slides:") e)
  /\ once w = (consoleError w (lit "Error generating slides:") e, 0%Z).
Proof.
  intros H. unfold gen, once, runOnce, generateSlides. rewrite H. split; reflexivity.
Qed.

Lemma render_failure (w : World FS) (markdown : list N) (e : Exn) :
  readFileSync (fs w) MARKDOWN_FILE = Ok markdown ->
  render (clock w) (parseMarkdown markdown) = Throw e ->
  gen w = (false, consoleError w (lit "Error generating slides:") e).
Proof.
  intros Hr Hg. unfold gen, generateSlides. unfold render in Hg. now rewrite Hr, Hg.
Qed.

Lemma write_outcome (w : World FS) (markdown html : list N) (f : FS) (r : Res unit) :
  readFileSync (fs w) MARKDOWN_FILE = Ok markdown ->
  render (clock w) (parseMarkdown markdown) = Ok html ->
  writeFileSync (fs w) OUTPUT_FILE html = (f, r) ->
  gen w =
    match r with
    | Ok _ =>
        (true, consoleLog (setFs w f)
                 ([checkmark] ++ lit " Generated "
                  ++ numToString (N.of_nat (length (parseMarkdown markdown)))
                  ++ lit " slides in index.html"))
    | Throw e => (false, consoleError (setFs w f) (lit "Error generating slides:") e)
    end.
Proof.
  intros Hr Hg Hw. unfold gen, generateSlides. unfold render in Hg.
  rewrite Hr, Hg, Hw. destruct r; reflexivity.
Qed.

Lemma once_status (w : World FS) : snd (once w) = 0%Z.
Proof.
  unfold once, runOnce.
  destruct (generateSlides toLowerCase docHead docMid docTail readFileSync
              writeFileSync w). reflexivity.
Qed.

End SingleShot.

(** C10, as the script has it.  When the source file cannot be read, the
    error is reported on the error stream, [generateSlides] returns [false],
    the file system is left as it was (nothing is written), and the run ends
    with status 0.  A rendering that throws is reported the same way, again
    with nothing written.  When the source is read and rendered, the outcome
    is that of the one write: if it succeeds the number of slides is
    reported, if it throws the error is reported.  In every case the status
    of the run is 0. *)
Theorem single_shot_run (toLowerCase : list N -> list N)
    (docHead docMid docTail : list N) (FS : Type)
    (readFileSync : FS -> list N -> Res (list N))
    (writeFileSync : FS -> list N -> list N -> FS * Res unit) (w : World FS) :
  let gen := generateSlides toLowerCase docHead docMid docTail readFileSync writeFileSync in
  let once := runOnce toLowerCase docHead docMid docTail readFileSync writeFileSync in
  (forall e : Exn,
     readFileSync (fs w) MARKDOWN_FILE = Throw e ->
     gen w = (false, consoleError w (lit "Error generating slides:") e)
     /\ fs (snd (gen w)) = fs w
     /\ once w = (consoleError w (lit "Error generating slides:") e, 0%Z))
  /\ (forall (markdown : list N) (e : Exn),
        readFileSync (fs w) MARKDOWN_FILE = Ok markdown ->
        generateHTML toLowerCase docHead docMid docTail (clock w) (parseMarkdown markdown)
        = Throw e ->
        gen w = (false, consoleError w (lit "Error generating slides:") e)
        /\ fs (snd (gen w)) = fs w)
  /\ (forall (markdown html : list N) (f : FS) (r : Res unit),
        readFileSync (fs w) MARKDOWN_FILE = Ok markdown ->
        generateHTML toLowerCase docHead docMid docTail (clock w) (parseMarkdown markdown)
        = Ok html ->
        writeFileSync (fs w) OUTPUT_FILE html = (f, r) ->
        gen w =
          match r with
          | Ok _ =>
              (true, consoleLog (setFs w f)
                       ([checkmark] ++ lit " Generated "
                        ++ numToString (N.of_nat (length (parseMarkdown markdown)))
                        ++ lit " slides in index.html"))
          | Throw e =>
              (false, consoleError (setFs w f) (lit "Error generating slides:") e)
          end)
  /\ snd (once w) = 0%Z.
Proof.
  cbv zeta. split; [|split; [|split]].
  - intros e H.
    destruct (read_failure toLowerCase docHead docMid docTail FS readFileSync
                writeFileSync w e H) as [E1 E2].
    rewrite E1. repeat split; assumption.
  - intros markdown e Hr Hg.
    rewrite (render_failure toLowerCase docHead docMid docTail FS readFileSync
               writeFileSync w markdown e Hr Hg). split; reflexivity.
  - intros markdown html f r. apply write_outcome.
  - apply once_status.
Qed.

Lemma single_shot_run_witness :
  let w := mkWorld (@nil (list N * list N)) 0%N [] [] in
  readFile (fs w) MARKDOWN_FILE = Throw IOError
  /\ generateSlides asciiLower [] [] [] readFile writeFile w
     = (false, consoleError w (lit "Error generating slides:") IOError)
  /\ fs (snd (generateSlides asciiLower [] [] [] readFile writeFile w)) = fs w.
Proof.
  cbv zeta. split; [reflexivity|].
  destruct (proj1 (single_shot_run asciiLower [] [] [] Files readFile writeFile
                     (mkWorld (@nil (list N * list N)) 0%N [] [])) IOError eq_refl)
    as (E1 & E2 & _).
  split; [exact E1 | exact E2].
Defined.

(** C10 as worded fails: the source file is missing, the run reports it,
    and ends with status 0. *)
Lemma single_shot_claimed_fails :
  let w := mkWorld (@nil (list N * list N)) 0%N [] [] in
  readFile (fs w) MARKDOWN_FILE = Throw IOError
  /\ fst (generateSlides asciiLower [] [] [] readFile writeFile w) = false
  /\ stderr (fst (runOnce asciiLower [] [] [] readFile writeFile w))
     = [(lit "Error generating slides:", IOError)]
  /\ snd (runOnce asciiLower [] [] [] readFile writeFile w) = 0%Z.
Proof.
  cbv zeta. repeat split.
Qed.

(** ** More on the parser: lines that leave no trace *)

Lemma dropWhile_nil (p : N -> bool) (s : list N) :
  dropWhile p s = [] -> forall x, In x s -> p x = true.
Proof.
  induction s as [|c s IH]; intros H x Hx; [contradiction|].
  cbn [dropWhile] in H. destruct (p c) eqn:Ec; [|discriminate].
  destruct Hx as [<-|Hx]; [exact Ec | now apply IH].
Qed.

Lemma dropWhile_head (p : N -> bool) (s : list N) (c : N) (t : list N) :
  dropWhile p s = c :: t -> p c = false.
Proof.
  induction s as [|x s IH]; cbn [dropWhile]; [discriminate|].
  destruct (p x) eqn:Ex; [exact IH|]. intros [= -> _]. exact Ex.
Qed.

Lemma trim_nil_spaces (s : list N) :
  trim s = [] -> forall x, In x s -> isSpace x = true.
Proof.
  unfold trim, trimEnd, trimStart. intros H.
  apply (f_equal (@rev N)) in H. rewrite rev_involutive in H. cbn [rev] in H.
  destruct (dropWhile isSpace s) as [|c t] eqn:E; [now apply dropWhile_nil|].
  exfalso. pose proof (dropWhile_head _ _ _ _ E) as Hc.
  cbn [rev] in H. rewrite dropWhile_snoc in H by exact Hc.
  destruct (dropWhile isSpace (rev t)); discriminate.
Qed.

Lemma startsWith_spaces (c : N) (p s : list N) :
  isSpace c = false -> (forall x, In x s -> isSpace x = true) ->
  startsWith (c :: p) s = false.
Proof.
  intros Hc Hs. destruct s as [|y s]; [reflexivity|]. cbn [startsWith].
  destruct (N.eqb_spec c y) as [<-|_]; [|reflexivity].
  rewrite (Hs c) in Hc by now left. discriminate.
Qed.

Lemma firstMatch_none {A : Type} (m : list N -> option A) (s : list N) :
  (forall a b, s = a ++ b -> m b = None) -> firstMatch m s = None.
Proof.
  induction s as [|c s IH]; intros H; cbn [firstMatch].
  - now rewrite (H [] [] eq_refl).
  - rewrite (H [] (c :: s) eq_refl). apply IH.
    intros a b ->. exact (H (c :: a) b eq_refl).
Qed.

Lemma blank_step (st : PState) (line : list N) :
  inCodeBlock st = false -> trim line = [] -> step st line = st.
Proof.
  intros Hin Ht. pose proof (trim_nil_spaces line Ht) as Hs.
  assert (S1 : forall c p, isSpace c = false -> startsWith (c :: p) line = false)
    by (intros; now apply startsWith_spaces).
  unfold step, matchHeader, statOf, matchImage.
  rewrite Hin, Ht.
  rewrite (S1 backtick [backtick; backtick] eq_refl : startsWith fence line = false).
  rewrite (S1 115%N (lit "lides:") eq_refl : startsWith (lit "slides:") line = false).
  rewrite (S1 65%N (lit "lso share with") eq_refl
           : startsWith (lit "Also share with") line = false).
  rewrite (S1 35%N [] eq_refl : startsWith (lit "#") line = false).
  rewrite (S1 35%N (lit "#") eq_refl : startsWith (lit "##") line = false).
  rewrite (S1 35%N (lit "##") eq_refl : startsWith (lit "###") line = false).
  rewrite (S1 45%N (lit " ") eq_refl : startsWith (lit "- ") line = false).
  cbn [orb eqs lit].
  replace (includes (lit ":") line) with false.
  2: { symmetry. change (lit ":") with [58%N].
       destruct (includes [58%N] line) eqn:E; [|reflexivity].
       apply includes_char in E. now apply Hs in E. }
  rewrite (firstMatch_none imageAt line); [reflexivity|].
  intros a b ->. unfold imageAt.
  assert (Hb : forall x, In x b -> isSpace x = true)
    by (intros x Hx; apply Hs, in_or_app; now right).
  rewrite (startsWith_spaces 33%N (lit "[") b eq_refl Hb
           : startsWith (lit "![") b = false). reflexivity.
Qed.

Lemma finish_collect (st : PState) (line : list N) :
  inCodeBlock st = true -> startsWith fence line = false ->
  finish (step st line) = finish st.
Proof. intros Hin Hf. now rewrite (step_in_fence st line Hin Hf). Qed.

Lemma run_collects (body : list (list N)) (st : PState) :
  inCodeBlock st = true ->
  Forall (fun l => startsWith fence l = false) body ->
  run body st =
    {| slides := slides st; currentSlide := currentSlide st; inCodeBlock := true;
       codeBlockContent := codeBlockContent st ++ body;
       codeBlockLang := codeBlockLang st |}.
Proof.
  intros Hin Hall. revert st Hin. induction Hall as [|l body Hl _ IH]; intros st Hin.
  - cbn. rewrite app_nil_r. destruct st; cbn in *; subst; reflexivity.
  - cbn [run fold_left]. change (fold_left step body ?s) with (run body s).
    rewrite (step_in_fence st l Hin Hl), IH by reflexivity.
    cbn. now rewrite <- app_assoc.
Qed.

(** X1.  Every slide [parseMarkdown] returns has at least one block. *)
Theorem parsed_slides_have_blocks (doc : list N) (s : Slide) :
  In s (parseMarkdown doc) -> content s <> [].
Proof.
  unfold parseMarkdown, parseLines. rewrite finish_run. cbn [slides init app].
  intros H. apply filter_In in H. destruct H as [_ H].
  unfold hasBlocks in H. destruct (content s); [discriminate | discriminate].
Qed.

Lemma parsed_slides_have_blocks_witness :
  content {| type := TContent; title := None; content := [Text (lit "x")] |} <> [].
Proof.
  apply (parsed_slides_have_blocks (lit "x")). now left.
Defined.

(** X2.  A line of white space only, read outside a fenced block, changes
    nothing: with or without it the parser reaches the same state. *)
Theorem blank_line_ignored (before after : list (list N)) (blank : list N)
    (st : PState) :
  inCodeBlock (run before st) = false -> trim blank = [] ->
  run (before ++ blank :: after) st = run (before ++ after) st.
Proof.
  intros Hin Hb. rewrite !run_app. cbn [run fold_left].
  now rewrite (blank_step _ _ Hin Hb).
Qed.

Lemma blank_line_ignored_witness :
  run ([lit "# A"] ++ [32%N; 9%N] :: [lit "text"]) init
  = run ([lit "# A"] ++ [lit "text"]) init.
Proof.
  apply blank_line_ignored; reflexivity.
Defined.

Lemma split_not_nil (sep : N) (s : list N) : split sep s <> [].
Proof.
  destruct s as [|c s]; cbn [split]; [discriminate|].
  destruct (N.eqb c sep); [discriminate|]. destruct (split sep s); discriminate.
Qed.

Lemma split_snoc_sep (sep : N) (s : list N) :
  split sep (s ++ [sep]) = split sep s ++ [[]].
Proof.
  induction s as [|c s IH]; cbn [app split].
  - now rewrite N.eqb_refl.
  - rewrite IH. destruct (N.eqb c sep); [reflexivity|].
    destruct (split sep s) eqn:E; [|reflexivity].
    exfalso. exact (split_not_nil _ _ E).
Qed.

(** X3.  A newline at the end of the document never changes the slides. *)
Theorem trailing_newline (doc : list N) :
  parseMarkdown (doc ++ [newline]) = parseMarkdown doc.
Proof.
  unfold parseMarkdown, parseLines. rewrite split_snoc_sep, run_app.
  cbn [run fold_left]. change (fold_left step ?l ?s) with (run l s).
  destruct (inCodeBlock (run (split newline doc) init)) eqn:Hin.
  - now apply finish_collect.
  - now rewrite blank_step.
Qed.

(** X4.  A fenced block that is never closed is lost: the lines from its
    opening fence to the end of the input add nothing to the slides. *)
Theorem unclosed_fence_dropped (ls body : list (list N)) (open : list N) :
  inCodeBlock (run ls init) = false ->
  startsWith fence open = true ->
  Forall (fun l => startsWith fence l = false) body ->
  parseLines (ls ++ open :: body) = parseLines ls.
Proof.
  intros Hin Ho Hb. unfold parseLines. rewrite run_app.
  cbn [run fold_left]. change (fold_left step ?l ?s) with (run l s).
  assert (E : step (run ls init) open =
              {| slides := slides (run ls init);
                 currentSlide := currentSlide (run ls init);
                 inCodeBlock := true; codeBlockContent := [];
                 codeBlockLang := trim (substringFrom open 3) |}).
  { unfold step. now rewrite Ho, Hin. }
  rewrite E.
  match goal with
  | |- context [run body ?s] => rewrite (run_collects body s eq_refl Hb)
  end. reflexivity.
Qed.

Lemma unclosed_fence_dropped_witness :
  parseLines ([lit "# A"; lit "text"] ++ (fence ++ lit "js") :: [lit "x = 1"; lit "- y"])
  = parseLines [lit "# A"; lit "text"].
Proof.
  apply unclosed_fence_dropped; [reflexivity | reflexivity | repeat constructor].
Defined.

Lemma split_join (sep : N) (body : list (list N)) :
  body <> [] -> Forall (fun l => ~ In sep l) body ->
  split sep (join [sep] body) = body.
Proof.
  intros Hne Hall. induction Hall as [|l body Hl Hall IH]; [contradiction|].
  cbn [join]. destruct body as [|l' body'].
  - now apply split_plain.
  - cbn [app]. rewrite split_at_first by exact Hl.
    f_equal. apply IH. discriminate.
Qed.

(** X5.  A fenced block that is closed gives exactly one code block, pushed
    on the open slide: its language is the trimmed rest of the opening fence
    line, and its text holds the lines of the body verbatim, so that
    splitting the text at the newlines gives the lines back. *)
Theorem fenced_block_round_trip (st : PState) (open close : list N)
    (body : list (list N)) :
  inCodeBlock st = false ->
  startsWith fence open = true -> startsWith fence close = true ->
  Forall (fun l => startsWith fence l = false) body ->
  run (open :: body ++ [close]) st =
    {| slides := slides st;
       currentSlide := pushBlock (currentSlide st)
                         (Code (trim (substringFrom open 3)) (join [newline] body));
       inCodeBlock := false; codeBlockContent := []; codeBlockLang := [] |}
  /\ (body <> [] -> Forall (fun l => ~ In newline l) body ->
      split newline (join [newline] body) = body).
Proof.
  intros Hin Ho Hc Hb. split; [|now apply split_join].
  cbn [run fold_left]. change (fold_left step ?l ?s) with (run l s).
  rewrite run_app.
  assert (E : step st open =
              {| slides := slides st; currentSlide := currentSlide st;
                 inCodeBlock := true; codeBlockContent := [];
                 codeBlockLang := trim (substringFrom open 3) |}).
  { unfold step. now rewrite Ho, Hin. }
  rewrite E.
  match goal with
  | |- context [run body ?s] => rewrite (run_collects body s eq_refl Hb)
  end.
  cbn [run fold_left]. unfold step. rewrite Hc. reflexivity.
Qed.

Lemma fenced_block_round_trip_witness :
  run ((fence ++ lit "js") :: [lit "# x"; lit "y: 1"] ++ [fence]) init
  = {| slides := [];
       currentSlide := pushBlock None
                         (Code (lit "js") (lit "# x" ++ [newline] ++ lit "y: 1"));
       inCodeBlock := false; codeBlockContent := []; codeBlockLang := [] |}.
Proof.
  apply (fenced_block_round_trip init (fence ++ lit "js") fence
           [lit "# x"; lit "y: 1"]);
    [reflexivity | reflexivity | reflexivity | repeat constructor].
Defined.

(** ** More on the parser: which rule takes a line *)

Lemma dropWhile_suffix (p : N -> bool) (s : list N) :
  exists a, s = a ++ dropWhile p s.
Proof.
  induction s as [|c s [a IH]]; [now exists []|].
  cbn [dropWhile]. destruct (p c); [|now exists []].
  exists (c :: a). cbn [app]. now rewrite <- IH.
Qed.

Lemma trimEnd_prefix (s : list N) : exists r, s = trimEnd s ++ r.
Proof.
  unfold trimEnd. destruct (dropWhile_suffix isSpace (rev s)) as [a H].
  exists (rev a). apply (f_equal (@rev N)) in H.
  now rewrite rev_involutive, rev_app_distr in H.
Qed.

Lemma trim_cons_end (c : N) (t : list N) :
  isSpace c = false -> trim (c :: t) = c :: trimEnd t.
Proof. exact (trim_cons c t). Qed.

Lemma eqs_eq (a b : list N) : eqs a b = true -> a = b.
Proof.
  revert b. induction a as [|x a IH]; intros [|y b]; cbn [eqs]; try discriminate;
    [reflexivity|].
  intros H. apply andb_true_iff in H. destruct H as [Hx Hab].
  apply N.eqb_eq in Hx. subst y. f_equal. now apply IH.
Qed.

(** A line whose first code unit is not white space and is the first code
    unit of neither [<hr>] nor [---] is no break line. *)
Lemma not_break (c : N) (t : list N) :
  isSpace c = false -> c <> 60%N -> c <> 45%N -> isBreakLine (c :: t) = false.
Proof.
  intros Hs H1 H2. unfold isBreakLine. rewrite trim_cons_end by exact Hs.
  change (lit "<hr>") with (60%N :: lit "hr>"). change (lit "---") with (45%N :: lit "--").
  cbn [eqs].
  destruct (N.eqb_spec c 60); [contradiction|].
  destruct (N.eqb_spec c 45); [contradiction|]. reflexivity.
Qed.

Lemma dash_space_not_break (rest : list N) :
  isBreakLine (45%N :: 32%N :: rest) = false.
Proof.
  unfold isBreakLine. rewrite trim_cons_end by reflexivity.
  destruct (trimEnd_prefix (32%N :: rest)) as [r H].
  destruct (trimEnd (32%N :: rest)) as [|y u]; [reflexivity|].
  cbn [app] in H. injection H as <- _. reflexivity.
Qed.

Lemma step_outside (st : PState) (line : list N) :
  inCodeBlock st = false -> startsWith fence line = false ->
  isMetadataLine line = false -> isBreakLine line = false ->
  isHeaderLine line = false ->
  step st line =
    match matchHeader (lit "###") line with
    | Some r => addBlock st (Subtitle (trim r))
    | None =>
        if startsWith (lit "- ") line
        then addBlock st (ListItem (trim (substringFrom line 2)))
        else match statOf false line with
             | Some b => addBlock st b
             | None =>
                 match matchImage line with
                 | Some (alt, src) => addBlock st (Image alt src)
                 | None => if truthy (trim line)
                           then addBlock st (Text (trim line)) else st
                 end
             end
    end.
Proof.
  unfold isMetadataLine, isBreakLine, isHeaderLine, step.
  intros -> -> -> -> H.
  destruct (matchHeader (lit "#") line); [discriminate|].
  destruct (matchHeader (lit "##") line); [discriminate|]. reflexivity.
Qed.

(** X6.  Outside a fenced block a line that begins with a dash and a space
    is always a list item, whatever else it holds (a colon with a number, an
    image, three dashes): its text is the trimmed rest of the line. *)
Theorem list_line_is_item (st : PState) (line : list N) :
  inCodeBlock st = false -> startsWith (lit "- ") line = true ->
  step st line = addBlock st (ListItem (trim (substringFrom line 2))).
Proof.
  intros Hin Hl. destruct (startsWith_prefix _ _ Hl) as [rest ->].
  change (lit "- " ++ rest) with (45%N :: 32%N :: rest) in *.
  rewrite step_outside; try reflexivity; try assumption.
  apply dash_space_not_break.
Qed.

Lemma list_line_is_item_witness :
  step init (lit "- total: 12 ![a](b)")
  = addBlock init (ListItem (lit "total: 12 ![a](b)")).
Proof.
  apply (list_line_is_item init (lit "- total: 12 ![a](b)")); reflexivity.
Defined.

(** X7.  Outside a fenced block a line that begins with [http] never gives
    a stat block, whatever colons and digits it holds: it is an image if it
    holds an image reference, and a text block of the trimmed line if not. *)
Theorem http_line_is_no_stat (st : PState) (line : list N) :
  inCodeBlock st = false -> startsWith (lit "http") line = true ->
  step st line =
    addBlock st (match matchImage line with
                 | Some (alt, src) => Image alt src
                 | None => Text (trim line)
                 end).
Proof.
  intros Hin Hh. destruct (startsWith_prefix _ _ Hh) as [rest ->].
  change (lit "http" ++ rest) with (104%N :: lit "ttp" ++ rest) in *.
  rewrite step_outside; try reflexivity; try assumption.
  - replace (matchHeader (lit "###") (104%N :: lit "ttp" ++ rest))
      with (@None (list N)) by reflexivity.
    replace (startsWith (lit "- ") (104%N :: lit "ttp" ++ rest)) with false
      by reflexivity.
    unfold statOf. rewrite Hh, andb_false_r. cbn [negb andb].
    destruct (matchImage (104%N :: lit "ttp" ++ rest)) as [[alt src]|]; [reflexivity|].
    now rewrite trim_cons_end.
  - now apply not_break.
Qed.

Lemma http_line_is_no_stat_witness :
  step init (lit "https://example.org:8080/x")
  = addBlock init (Text (lit "https://example.org:8080/x")).
Proof.
  apply (http_line_is_no_stat init (lit "https://example.org:8080/x")); reflexivity.
Defined.

(** X8.  The parser rejects no line.  Outside a fenced block, a line that is
    neither a fence, nor metadata, nor a break, nor a level-1 or level-2
    header, and that is not blank, adds exactly one block to the open slide,
    and that block is no code block. *)
Theorem content_line_adds_one_block (st : PState) (line : list N) :
  inCodeBlock st = false -> startsWith fence line = false ->
  isMetadataLine line = false -> isBreakLine line = false ->
  isHeaderLine line = false -> trim line <> [] ->
  exists b, step st line = addBlock st b /\ notCode b.
Proof.
  intros Hin Hf Hm Hb Hh Ht. rewrite step_outside by assumption.
  destruct (matchHeader (lit "###") line); [eexists; split; [reflexivity | exact I]|].
  destruct (startsWith (lit "- ") line); [eexists; split; [reflexivity | exact I]|].
  destruct (statOf false line) as [b|] eqn:Es.
  { exists b. split; [reflexivity|]. unfold statOf in Es.
    repeat match type of Es with
           | (if ?c then _ else _) = _ => destruct c; [|discriminate]
           end.
    injection Es as <-. exact I. }
  destruct (matchImage line) as [[alt src]|]; [eexists; split; [reflexivity | exact I]|].
  apply truthy_iff in Ht. rewrite Ht. eexists; split; [reflexivity | exact I].
Qed.

Lemma content_line_adds_one_block_witness :
  exists b, step init (lit "Step 1: continue") = addBlock init b /\ notCode b.
Proof.
  apply content_line_adds_one_block; try reflexivity. discriminate.
Defined.

(** ** More on the parser: what every slide and block satisfies *)

Lemma dropWhile_idem (p : N -> bool) (s : list N) :
  dropWhile p (dropWhile p s) = dropWhile p s.
Proof.
  destruct (dropWhile p s) as [|c t] eqn:E; [reflexivity|].
  cbn [dropWhile]. now rewrite (dropWhile_head _ _ _ _ E).
Qed.

Lemma trimEnd_idem (s : list N) : trimEnd (trimEnd s) = trimEnd s.
Proof. unfold trimEnd. now rewrite rev_involutive, dropWhile_idem. Qed.

Lemma trimEnd_cons (c : N) (t : list N) :
  isSpace c = false -> trimEnd (c :: t) = c :: trimEnd t.
Proof.
  intros Hc. unfold trimEnd. cbn [rev].
  now rewrite dropWhile_snoc, rev_app_distr by exact Hc.
Qed.

Lemma trim_idem (s : list N) : trimmed (trim s).
Proof.
  unfold trimmed, trim, trimStart.
  destruct (dropWhile isSpace s) as [|c t] eqn:E; [reflexivity|].
  pose proof (dropWhile_head _ _ _ _ E) as Hc.
  rewrite (trimEnd_cons c t Hc). cbn [dropWhile]. rewrite Hc.
  now rewrite (trimEnd_cons c _ Hc), trimEnd_idem.
Qed.

Lemma trimmed_nil : trimmed [].
Proof. reflexivity. Qed.

Lemma dropWhile_subset (p : N -> bool) (s : list N) (x : N) :
  In x (dropWhile p s) -> In x s.
Proof.
  destruct (dropWhile_suffix p s) as [a H]. intros Hx. rewrite H.
  apply in_or_app. now right.
Qed.

Lemma trim_subset (s : list N) (x : N) : In x (trim s) -> In x s.
Proof.
  unfold trim, trimEnd, trimStart. intros H.
  apply in_rev, dropWhile_subset, in_rev in H.
  now apply dropWhile_subset in H.
Qed.

Lemma takeWhile_all (p : N -> bool) (s : list N) (x : N) :
  In x (takeWhile p s) -> p x = true.
Proof.
  induction s as [|c s IH]; cbn [takeWhile]; [contradiction|].
  destruct (p c) eqn:Ec; [|contradiction].
  intros [<-|H]; [exact Ec | now apply IH].
Qed.

Lemma firstMatch_some {A : Type} (m : list N -> option A) (s : list N) (r : A) :
  firstMatch m s = Some r -> exists a b, s = a ++ b /\ m b = Some r.
Proof.
  induction s as [|c s IH]; cbn [firstMatch].
  - destruct (m []) eqn:E; [|discriminate]. intros [= <-]. now exists [], [].
  - destruct (m (c :: s)) eqn:E.
    + intros [= <-]. now exists [], (c :: s).
    + intros H. destruct (IH H) as (a & b & -> & Hb). now exists (c :: a), b.
Qed.

Lemma statOf_wellFormed (line : list N) (b : Block) :
  statOf false line = Some b -> wellFormed b.
Proof.
  intros H.
  assert (Hb : exists k v, b = Stat k v).
  { unfold statOf in H.
    repeat match type of H with
           | (if ?c then _ else _) = _ => destruct c; [|discriminate]
           end.
    injection H as <-. eauto. }
  destruct Hb as (k & v & ->). apply statOf_iff in H.
  destruct H as (a & c & [_ Ha] & _ & -> & -> & Hk & Hs & Hv & Hd).
  cbn [wellFormed]. repeat split; try assumption; try apply trim_idem.
  intros Hin. apply Ha. now apply trim_subset.
Qed.

Lemma matchImage_wellFormed (line alt src : list N) :
  matchImage line = Some (alt, src) -> wellFormed (Image alt src).
Proof.
  unfold matchImage. intros H.
  destruct (firstMatch_some _ _ _ H) as (a & b & _ & Hb). clear H.
  unfold imageAt in Hb.
  destruct (startsWith (lit "![") b); [|discriminate].
  destruct (startsWith (lit "](") _); [|discriminate].
  match type of Hb with
  | (if truthy ?s && _ then _ else _) = _ => destruct (truthy s) eqn:Hs
  end; [|discriminate].
  cbn [andb] in Hb.
  match type of Hb with
  | (if ?c then _ else _) = _ => destruct c
  end; [|discriminate].
  injection Hb as <- <-. cbn [wellFormed]. repeat split.
  - intros Hin. apply takeWhile_all in Hin. discriminate.
  - now apply truthy_iff.
  - intros Hin. apply takeWhile_all in Hin. discriminate.
Qed.

Lemma wellFormed_push (cur : option Slide) (b : Block) :
  (forall s, cur = Some s -> wellFormedSlide s) -> wellFormed b ->
  forall s, pushBlock cur b = Some s -> wellFormedSlide s.
Proof.
  intros Hcur Hb s. unfold pushBlock. intros [= <-]. unfold wellFormedSlide.
  cbn [type title content]. destruct cur as [s0|].
  - destruct (Hcur s0 eq_refl) as (H1 & H2 & H3).
    repeat split; try apply H1; try exact H2.
    apply Forall_app. split; [exact H3 | now constructor].
  - cbn [type title content app]. repeat split; try discriminate.
    now constructor.
Qed.

Lemma wellFormed_pushSlide (sl : list Slide) (cur : option Slide) :
  Forall wellFormedSlide sl -> (forall s, cur = Some s -> wellFormedSlide s) ->
  Forall wellFormedSlide (pushSlide sl cur).
Proof.
  intros Hsl Hcur. unfold pushSlide. destruct cur as [s|]; [|exact Hsl].
  destruct (0 <? length (content s))%nat; [|exact Hsl].
  apply Forall_app. split; [exact Hsl|]. constructor; [now apply Hcur | constructor].
Qed.

Lemma wellFormed_header (ty : SlideType) (r : list N) :
  ty <> TContent ->
  forall s, Some {| type := ty; title := Some (trim r); content := [] |} = Some s ->
  wellFormedSlide s.
Proof.
  intros Hty s [= <-]. unfold wellFormedSlide. cbn [type title content].
  repeat split; try (intros; congruence); [|constructor].
  intros t [= <-]. apply trim_idem.
Qed.

Lemma step_wellFormed (st : PState) (line : list N) :
  Forall wellFormedSlide (slides st) ->
  (forall s, currentSlide st = Some s -> wellFormedSlide s) ->
  trimmed (codeBlockLang st) ->
  Forall wellFormedSlide (slides (step st line))
  /\ (forall s, currentSlide (step st line) = Some s -> wellFormedSlide s)
  /\ trimmed (codeBlockLang (step st line)).
Proof.
  intros Hsl Hcur Hlang.
  assert (Hadd : forall b, wellFormed b ->
            Forall wellFormedSlide (slides (addBlock st b))
            /\ (forall s, currentSlide (addBlock st b) = Some s -> wellFormedSlide s)
            /\ trimmed (codeBlockLang (addBlock st b))).
  { intros b Hb. split; [exact Hsl | split; [|exact Hlang]].
    now apply wellFormed_push. }
  assert (Hhead : forall ty r, ty <> TContent ->
            let st' := setSlides st (pushSlide (slides st) (currentSlide st))
                         (Some {| type := ty; title := Some (trim r); content := [] |}) in
            Forall wellFormedSlide (slides st')
            /\ (forall s, currentSlide st' = Some s -> wellFormedSlide s)
            /\ trimmed (codeBlockLang st')).
  { intros ty r Hty. split; [|split; [|exact Hlang]].
    - now apply wellFormed_pushSlide.
    - now apply wellFormed_header. }
  unfold step.
  destruct (startsWith fence line).
  { destruct (inCodeBlock st); (split; [exact Hsl | split]).
    - now apply wellFormed_push.
    - exact trimmed_nil.
    - exact Hcur.
    - apply trim_idem. }
  destruct (inCodeBlock st) eqn:Hin; [now split|].
  destruct (startsWith (lit "slides:") line || startsWith (lit "Also share with") line);
    [now split|].
  destruct (eqs (trim line) (lit "<hr>") || eqs (trim line) (lit "---")).
  { split; [|split; [discriminate | exact Hlang]].
    now apply wellFormed_pushSlide. }
  destruct (matchHeader (lit "#") line); [apply Hhead; discriminate|].
  destruct (matchHeader (lit "##") line); [apply Hhead; discriminate|].
  destruct (matchHeader (lit "###") line); [apply Hadd, trim_idem|].
  destruct (startsWith (lit "- ") line); [apply Hadd, trim_idem|].
  destruct (statOf false line) eqn:Es; [apply Hadd; exact (statOf_wellFormed _ _ Es)|].
  destruct (matchImage line) as [[alt src]|] eqn:Ei;
    [apply Hadd; exact (matchImage_wellFormed _ _ _ Ei)|].
  destruct (truthy (trim line)) eqn:Et; [|now split].
  apply Hadd. split; [now apply truthy_iff | apply trim_idem].
Qed.

Lemma run_wellFormed (ls : list (list N)) (st : PState) :
  Forall wellFormedSlide (slides st) ->
  (forall s, currentSlide st = Some s -> wellFormedSlide s) ->
  trimmed (codeBlockLang st) ->
  Forall wellFormedSlide (finish (run ls st)).
Proof.
  revert st. induction ls as [|l ls IH]; intros st H1 H2 H3.
  - cbn. unfold finish. now apply wellFormed_pushSlide.
  - cbn [run fold_left]. change (fold_left step ls ?s) with (run ls s).
    destruct (step_wellFormed st l H1 H2 H3) as (A & B & C). now apply IH.
Qed.

(** X9.  Every slide [parseMarkdown] returns is well formed.  It has a
    title exactly when a header opened it, and the title is trimmed.  The
    texts of its subtitles, list items and text blocks and the language tags
    of its code blocks are trimmed, and a text block is never empty.  A stat
    block has a non-empty trimmed key without space or colon and a non-empty
    trimmed value with a digit or a comma.  An image block has a non-empty
    source without closing parenthesis and an alternative text without
    closing bracket. *)
Theorem parsed_slides_well_formed (doc : list N) :
  Forall wellFormedSlide (parseMarkdown doc).
Proof.
  unfold parseMarkdown, parseLines. apply run_wellFormed.
  - constructor.
  - discriminate.
  - exact trimmed_nil.
Qed.

(** ** More on the parser: documents compose at a break *)

Lemma step_fenceReset (st : PState) (line : list N) :
  fenceReset st -> fenceReset (step st line).
Proof.
  unfold fenceReset, step. intros H.
  destruct (startsWith fence line).
  { destruct (inCodeBlock st); cbn; [now split | discriminate]. }
  destruct (inCodeBlock st) eqn:Hin; [cbn; congruence|].
  repeat match goal with
         | |- context [if ?c then _ else _] => destruct c
         | |- context [match ?c with Some _ => _ | None => _ end] => destruct c
         | |- context [let '(_, _) := ?p in _] => destruct p
         end; cbn; intros; now apply H.
Qed.

Lemma run_fenceReset (ls : list (list N)) (st : PState) :
  fenceReset st -> fenceReset (run ls st).
Proof.
  revert st. induction ls as [|l ls IH]; intros st H; [exact H|].
  cbn [run fold_left]. apply IH. now apply step_fenceReset.
Qed.

Lemma step_sameOpen (st st' : PState) (line : list N) :
  sameOpen st st' ->
  sameOpen (step st line) (step st' line)
  /\ isBoundary st line = isBoundary st' line.
Proof.
  destruct st as [sl cur inc cc cl], st' as [sl' cur' inc' cc' cl'].
  unfold sameOpen. cbn [currentSlide inCodeBlock codeBlockContent codeBlockLang].
  intros (-> & -> & -> & ->). split; [|reflexivity].
  unfold step. cbn [currentSlide inCodeBlock codeBlockContent codeBlockLang slides].
  repeat match goal with
         | |- context [if ?c then _ else _] => destruct c
         | |- context [match ?c with Some _ => _ | None => _ end] => destruct c
         | |- context [let '(_, _) := ?p in _] => destruct p
         end; cbn; repeat split.
Qed.

Lemma closedSlides_sameOpen (ls : list (list N)) (st st' : PState) :
  sameOpen st st' -> closedSlides st ls = closedSlides st' ls.
Proof.
  revert st st'. induction ls as [|l ls IH]; intros st st' H.
  - cbn. unfold openSlide. now rewrite (proj1 H).
  - cbn [closedSlides]. destruct (step_sameOpen st st' l H) as [Hs Hb].
    rewrite Hb, (IH _ _ Hs). unfold openSlide. now rewrite (proj1 H).
Qed.

Lemma break_step (st : PState) (brk : list N) :
  inCodeBlock st = false -> isBreakLine brk = true ->
  step st brk = setSlides st (pushSlide (slides st) (currentSlide st)) None.
Proof.
  intros Hin Hb.
  assert (Hc : forall c t, brk = c :: t -> isSpace c = false ->
               c <> 60%N -> c <> 45%N -> False).
  { intros c t -> H1 H2 H3. rewrite not_break in Hb by assumption. discriminate. }
  assert (Hf : forall c p, isSpace c = false -> c <> 60%N -> c <> 45%N ->
               startsWith (c :: p) brk = false).
  { intros c p H1 H2 H3. destruct brk as [|y t]; [reflexivity|]. cbn [startsWith].
    destruct (N.eqb_spec c y) as [<-|_]; [|reflexivity].
    exfalso. exact (Hc c t eq_refl H1 H2 H3). }
  unfold step. unfold isBreakLine in Hb.
  rewrite (Hf backtick [backtick; backtick] eq_refl ltac:(discriminate)
             ltac:(discriminate) : startsWith fence brk = false).
  rewrite (Hf 115%N (lit "lides:") eq_refl ltac:(discriminate) ltac:(discriminate)
           : startsWith (lit "slides:") brk = false).
  rewrite (Hf 65%N (lit "lso share with") eq_refl ltac:(discriminate)
             ltac:(discriminate) : startsWith (lit "Also share with") brk = false).
  now rewrite Hin, Hb.
Qed.

Lemma split_app_sep (sep : N) (a b : list N) :
  split sep (a ++ sep :: b) = split sep a ++ split sep b.
Proof.
  induction a as [|c a IH]; cbn [app split].
  - now rewrite N.eqb_refl.
  - rewrite IH. destruct (N.eqb c sep); [reflexivity|].
    destruct (split sep a) eqn:E; [|reflexivity].
    exfalso. exact (split_not_nil _ _ E).
Qed.

Lemma parseLines_break (l1 l2 : list (list N)) (brk : list N) :
  inCodeBlock (run l1 init) = false -> isBreakLine brk = true ->
  parseLines (l1 ++ brk :: l2) = parseLines l1 ++ parseLines l2.
Proof.
  intros Hin Hb. unfold parseLines at 1. rewrite run_app.
  cbn [run fold_left]. change (fold_left step ?l ?s) with (run l s).
  rewrite (break_step _ _ Hin Hb), finish_run.
  cbn [slides setSlides]. f_equal.
  unfold parseLines. rewrite finish_run. cbn [slides init app].
  f_equal. apply closedSlides_sameOpen.
  destruct (run_fenceReset l1 init (fun _ => conj eq_refl eq_refl) Hin) as [Hc Hl].
  unfold sameOpen. cbn. now rewrite Hin, Hc, Hl.
Qed.

(** X10.  Documents compose at a slide break.  When the first part leaves no
    fenced block open, the slides of the first part, a break line ([---] or
    [<hr>], with any white space around) and the second part are the slides
    of the first part followed by the slides of the second. *)
Theorem documents_compose_at_break :
  (forall (l1 l2 : list (list N)) (brk : list N),
     inCodeBlock (run l1 init) = false -> isBreakLine brk = true ->
     parseLines (l1 ++ brk :: l2) = parseLines l1 ++ parseLines l2)
  /\ (forall d1 d2 : list N,
        inCodeBlock (run (split newline d1) init) = false ->
        parseMarkdown (d1 ++ [newline] ++ lit "---" ++ [newline] ++ d2)
        = parseMarkdown d1 ++ parseMarkdown d2).
Proof.
  split; [exact parseLines_break|].
  intros d1 d2 Hin. unfold parseMarkdown.
  change (d1 ++ [newline] ++ lit "---" ++ [newline] ++ d2)
    with (d1 ++ newline :: (lit "---" ++ newline :: d2)).
  rewrite !split_app_sep. change (split newline (lit "---")) with [lit "---"].
  cbn [app]. now apply parseLines_break.
Qed.

Lemma documents_compose_at_break_witness :
  parseMarkdown (lit "# A" ++ [newline] ++ lit "x" ++ [newline] ++ lit "---"
                 ++ [newline] ++ lit "y")
  = parseMarkdown (lit "# A" ++ [newline] ++ lit "x") ++ parseMarkdown (lit "y").
Proof.
  apply (proj2 documents_compose_at_break (lit "# A" ++ [newline] ++ lit "x") (lit "y")).
  reflexivity.
Defined.

(** ** More on escapeHtml *)

Lemma escapeChar_head (c d : N) (x y : list N) :
  escapeChar c ++ x = escapeChar d ++ y -> c = d.
Proof.
  unfold escapeChar.
  destruct (N.eqb_spec c 38); [|destruct (N.eqb_spec c 60);
    [|destruct (N.eqb_spec c 62); [|destruct (N.eqb_spec c 34);
      [|destruct (N.eqb_spec c 39)]]]];
  (destruct (N.eqb_spec d 38); [|destruct (N.eqb_spec d 60);
    [|destruct (N.eqb_spec d 62); [|destruct (N.eqb_spec d 34);
      [|destruct (N.eqb_spec d 39)]]]]);
  subst; intros H; vm_compute in H;
    first [ reflexivity | discriminate H
          | injection H; intros; subst; first [reflexivity | contradiction] ].
Qed.

Lemma escapeChar_not_nil (c : N) : escapeChar c <> [].
Proof.
  unfold escapeChar.
  repeat match goal with
         | |- context [if ?b then _ else _] => destruct b
         end; discriminate.
Qed.

Lemma escapeHtml_injective (a b : list N) : escapeHtml a = escapeHtml b -> a = b.
Proof.
  revert b. induction a as [|c a IH]; intros [|d b]; rewrite ?escapeHtml_cons.
  - reflexivity.
  - change (escapeHtml []) with (@nil N). intros H. symmetry in H.
    apply app_eq_nil in H. destruct H as [H _]. now apply escapeChar_not_nil in H.
  - change (escapeHtml []) with (@nil N). intros H.
    apply app_eq_nil in H. destruct H as [H _]. now apply escapeChar_not_nil in H.
  - intros H. pose proof (escapeChar_head _ _ _ _ H) as ->.
    apply app_inv_head in H. f_equal. now apply IH.
Qed.

Lemma escapeHtml_app (a b : list N) :
  escapeHtml (a ++ b) = escapeHtml a ++ escapeHtml b.
Proof. rewrite !escapeHtml_chars. apply flat_map_app. Qed.

Lemma escapeHtml_plain_text (text : list N) :
  (forall x, In x text -> isReserved x = false) -> escapeHtml text = text.
Proof.
  induction text as [|c t IH]; intros H; [reflexivity|].
  rewrite escapeHtml_cons, IH by (intros x Hx; apply H; now right).
  assert (Hc : isReserved c = false) by (apply H; now left).
  unfold isReserved in Hc. unfold escapeChar.
  repeat (apply orb_false_elim in Hc; destruct Hc as [Hc ?]).
  repeat match goal with
         | E : (c =? _)%N = false |- _ => rewrite E; clear E
         end.
  reflexivity.
Qed.

(** X11.  [escapeHtml] loses nothing: two texts with the same escaped form
    are the same text. *)
Theorem escaping_is_injective (a b : list N) :
  escapeHtml a = escapeHtml b -> a = b.
Proof. exact (escapeHtml_injective a b). Qed.

Lemma escaping_is_injective_witness :
  lit "a<b" = lit "a<b".
Proof.
  apply (escaping_is_injective (lit "a<b") (lit "a<b")). reflexivity.
Defined.

(** X12.  [escapeHtml] works code unit by code unit: the escaped form of two
    texts one behind the other is the two escaped forms one behind the other,
    a text that holds none of the five reserved characters is returned as it
    is, and the escaped text is never shorter than the text. *)
Theorem escaping_is_local :
  (forall a b : list N, escapeHtml (a ++ b) = escapeHtml a ++ escapeHtml b)
  /\ (forall text : list N,
        (forall x, In x text -> isReserved x = false) -> escapeHtml text = text)
  /\ (forall text : list N, (length text <= length (escapeHtml text))%nat).
Proof.
  split; [exact escapeHtml_app|]. split; [exact escapeHtml_plain_text|].
  induction text as [|c t IH]; [apply le_n|].
  rewrite escapeHtml_cons, length_app. cbn [length].
  pose proof (escapeChar_not_nil c) as Hc.
  destruct (escapeChar c); [contradiction|]. cbn [length]. lia.
Qed.

Lemma escaping_is_local_witness :
  escapeHtml (lit "git pkgs list") = lit "git pkgs list".
Proof.
  apply (proj1 (proj2 escaping_is_local)).
  intros x Hx. cbn in Hx.
  repeat (destruct Hx as [<-|Hx]; [reflexivity|]). contradiction.
Defined.

(** ** More on code blocks *)

Lemma join_cons2 (sep w w' : list N) (ws : list (list N)) :
  join sep (w :: w' :: ws) = w ++ sep ++ join sep (w' :: ws).
Proof. reflexivity. Qed.

Lemma join_split (sep : N) (s : list N) : join [sep] (split sep s) = s.
Proof.
  induction s as [|c s IH]; [reflexivity|]. cbn [split].
  destruct (split sep s) as [|w ws] eqn:E; [exfalso; exact (split_not_nil _ _ E)|].
  destruct (N.eqb_spec c sep) as [->|_].
  - now rewrite join_cons2, IH.
  - destruct ws as [|w' ws].
    + cbn [join] in *. now rewrite IH.
    + rewrite join_cons2 in *. now rewrite <- IH.
Qed.

(** X13.  The prompt highlighting touches prompt lines only: a terminal
    block none of whose lines begins with the dollar sign embeds the escaped
    text, as a block of any other language does. *)
Theorem terminal_without_prompt (text : list N) :
  (forall line, In line (split newline text) -> startsWith (lit "$") line = false) ->
  codeTextOf (lit "terminal") text = escapeHtml text.
Proof.
  intros H. rewrite terminal_lines.
  rewrite <- (join_split newline (escapeHtml text)), split_escapeHtml.
  f_equal. apply map_ext_in. intros line Hl. unfold promptLine. now rewrite (H line Hl).
Qed.

Lemma terminal_without_prompt_witness :
  codeTextOf (lit "terminal") (lit "a < b" ++ [newline] ++ lit "done")
  = escapeHtml (lit "a < b" ++ [newline] ++ lit "done").
Proof.
  apply terminal_without_prompt. intros line Hl. cbn in Hl.
  repeat (destruct Hl as [<-|Hl]; [reflexivity|]). contradiction.
Defined.

(** ** More on the renderer: the card of a stat *)

Lemma firstMatch_percentAt_skip (pre s : list N) :
  ~ In 40%N pre -> firstMatch percentAt (pre ++ s) = firstMatch percentAt s.
Proof.
  induction pre as [|c pre IH]; intros H; [reflexivity|].
  cbn [app firstMatch].
  assert (E : percentAt (c :: pre ++ s) = None).
  { unfold percentAt. change (lit "(") with [40%N]. cbn [startsWith].
    destruct (N.eqb_spec 40 c) as [<-|_]; [exfalso; apply H; now left | reflexivity]. }
  rewrite E. apply IH. intros Hp. apply H. now right.
Qed.

Lemma percentAt_here (num rest : list N) :
  num <> [] -> (forall x, In x num -> isDigitOrDot x = true) ->
  percentAt (lit "(" ++ num ++ lit "%)" ++ rest) = Some (num ++ lit "%").
Proof.
  intros Hn Hall. unfold percentAt.
  replace (startsWith (lit "(") (lit "(" ++ num ++ lit "%)" ++ rest)) with true
    by reflexivity.
  change (skipn 1 (lit "(" ++ num ++ lit "%)" ++ rest)) with (num ++ lit "%)" ++ rest).
  rewrite (takeWhile_stop (fun c => isDigit c || (c =? 46)%N) num
             (lit "%)" ++ rest) Hall) by reflexivity.
  rewrite skipn_length_app, startsWith_app.
  destruct num; [contradiction | reflexivity].
Qed.

Lemma statCard_percentage (html key main num rest : list N) :
  ~ In 40%N main -> num <> [] -> (forall x, In x num -> isDigitOrDot x = true) ->
  statCard html (key, main ++ lit "(" ++ num ++ lit "%)" ++ rest)
  = Ok (html ++ statCardHtml (trim main) key (Some (num ++ lit "%"))).
Proof.
  intros Hm Hn Hall. rewrite statCard_appends. unfold statCard.
  set (value := main ++ lit "(" ++ num ++ lit "%)" ++ rest).
  assert (H1 : includes (lit "(") value = true).
  { apply includes_app_r, includes_startsWith, startsWith_app. }
  assert (H2 : includes (lit "%)") value = true).
  { unfold value. apply includes_app_r.
    replace (lit "(" ++ num ++ lit "%)" ++ rest)
      with ((lit "(" ++ num) ++ lit "%)" ++ rest) by (now rewrite <- app_assoc).
    apply includes_app_r, includes_startsWith, startsWith_app. }
  assert (H3 : firstMatch percentAt value = Some (num ++ lit "%")).
  { unfold value. rewrite firstMatch_percentAt_skip by exact Hm.
    apply firstMatch_here, percentAt_here; assumption. }
  assert (H4 : hd [] (split 40%N value) = main).
  { unfold value. change (lit "(" ++ num ++ lit "%)" ++ rest)
      with (40%N :: num ++ lit "%)" ++ rest).
    now rewrite split_at_first. }
  rewrite H1, H2, H3, H4. cbn [andb group1 bind appendTo truthyOpt].
  replace (truthy (num ++ lit "%")) with true by (destruct num; reflexivity).
  unfold statCardHtml. f_equal. assoc_app.
Qed.

Lemma statCard_plain (html key value : list N) :
  includes (lit "(") value && includes (lit "%)") value = false ->
  statCard html (key, value) = Ok (html ++ statCardHtml value key None).
Proof.
  intros H. rewrite statCard_appends. unfold statCard. rewrite H.
  cbn [bind appendTo truthyOpt]. unfold statCardHtml. f_equal. assoc_app.
Qed.

(** X14.  The card of a stat.  A value of the form main text, opening
    parenthesis, a number with digits and dots, percent sign, closing
    parenthesis (and anything behind), where the main text holds no opening
    parenthesis, shows the trimmed main text as the big number and the number
    with its percent sign as the percentage.  A value without an opening
    parenthesis, or without a percent sign before a closing one, is shown
    whole as the big number, with no percentage.  In both cases the
    underscores of the key are shown as spaces. *)
Theorem stat_card_shapes :
  (forall html key main num rest : list N,
     ~ In 40%N main -> num <> [] ->
     (forall x, In x num -> isDigitOrDot x = true) ->
     statCard html (key, main ++ lit "(" ++ num ++ lit "%)" ++ rest)
     = Ok (html ++ statCardHtml (trim main) key (Some (num ++ lit "%"))))
  /\ (forall html key value : list N,
        includes (lit "(") value && includes (lit "%)") value = false ->
        statCard html (key, value) = Ok (html ++ statCardHtml value key None)).
Proof. split; [exact statCard_percentage | exact statCard_plain]. Qed.

Lemma stat_card_shapes_witness :
  statCard [] (lit "active_users", lit "150,926 " ++ lit "(" ++ lit "92.5" ++ lit "%)" ++ [])
  = Ok ([] ++ statCardHtml (lit "150,926") (lit "active_users") (Some (lit "92.5%"))).
Proof.
  apply (proj1 stat_card_shapes [] (lit "active_users") (lit "150,926 ") (lit "92.5") []).
  - cbn. intros H. repeat (destruct H as [H|H]; [discriminate|]). exact H.
  - discriminate.
  - intros x Hx. cbn in Hx.
    repeat (destruct Hx as [<-|Hx]; [reflexivity|]). contradiction.
Defined.

(** ** More on the renderer: the items of the plain list *)







(** ** More on the renderer: text is embedded as it is *)

Lemma occursIn_here (p a b : list N) : occursIn p (a ++ p ++ b).
Proof. now exists a, b. Qed.

Lemma occursIn_app_r (p a s : list N) : occursIn p s -> occursIn p (a ++ s).
Proof.
  intros (x & y & ->). exists (a ++ x), y. now rewrite <- app_assoc.
Qed.

Lemma occursIn_app_l (p s b : list N) : occursIn p s -> occursIn p (s ++ b).
Proof.
  intros (x & y & ->). exists x, (y ++ b). now rewrite <- !app_assoc.
Qed.

Lemma occursIn_concat (p s : list N) (l : list (list N)) :
  In s l -> occursIn p s -> occursIn p (concat l).
Proof.
  induction l as [|w l IH]; [contradiction|]. intros [->|H] Hp; cbn [concat].
  - now apply occursIn_app_l.
  - apply occursIn_app_r. now apply IH.
Qed.

Lemma texts_in (c : list Block) (t : list N) :
  In (Text t) c -> In t (textsOf c).
Proof.
  unfold textsOf. intros H. apply in_flat_map. exists (Text t). split; [exact H | now left].
Qed.

Lemma subtitles_in (c : list Block) (t : list N) :
  In (Subtitle t) c -> In t (subtitlesOf c).
Proof.
  unfold subtitlesOf. intros H. apply in_flat_map.
  exists (Subtitle t). split; [exact H | now left].
Qed.

Lemma Ok_inj {A : Type} (a b : A) : Ok a = Ok b -> a = b.
Proof. now intros [= ->]. Qed.

(** X16.  Only code is escaped.  The text of a text block is embedded in
    the fragment of its slide as it is, between [<p>] and [</p>], and the text
    of a subtitle between [<h3>] and [</h3>], whatever markup they hold. *)
Theorem text_is_embedded_verbatim (toLowerCase : list N -> list N)
    (slidesLength index : nat) (slide : Slide) (frag t : list N) :
  slideHTML toLowerCase slidesLength slide index = Ok frag ->
  (In (Text t) (content slide) -> occursIn (lit "<p>" ++ t ++ lit "</p>") frag)
  /\ (In (Subtitle t) (content slide) -> occursIn (lit "<h3>" ++ t ++ lit "</h3>") frag).
Proof.
  rewrite slideHTML_grouped.
  destruct (statsHtml _) as [st|]; cbn [bind]; [|discriminate].
  destruct (listHtml _) as [li|]; cbn [bind]; [|discriminate].
  intros E. apply Ok_inj in E. subst frag. split; intros H.
  - do 4 apply occursIn_app_r. apply occursIn_app_l.
    apply (occursIn_concat _ (textHtml t)).
    + apply in_map. now apply texts_in.
    + unfold textHtml. exists (lit "            "), nl.
      now rewrite <- !app_assoc.
  - apply occursIn_app_r, occursIn_app_l.
    apply (occursIn_concat _ (subtitleHtml t)).
    + apply in_map. now apply subtitles_in.
    + unfold subtitleHtml. exists (lit "            "), nl.
      now rewrite <- !app_assoc.
Qed.

Lemma text_is_embedded_verbatim_witness :
  exists frag,
    slideHTML asciiLower 1
      (mkSlide TContent None [Text (lit "<script>alert(1)</script>")]) 0 = Ok frag
    /\ occursIn (lit "<p>" ++ lit "<script>alert(1)</script>" ++ lit "</p>") frag.
Proof.
  destruct (slideHTML asciiLower 1
              (mkSlide TContent None [Text (lit "<script>alert(1)</script>")]) 0)
    as [frag|] eqn:E; [|vm_compute in E; discriminate].
  exists frag. split; [reflexivity|].
  apply (proj1 (text_is_embedded_verbatim asciiLower 1 0 _ frag
                  (lit "<script>alert(1)</script>") E)).
  now left.
Defined.

(** ** More on the renderer: when it throws *)

Lemma concatM_ok_iff {A : Type} (f : A -> Res (list N)) (l : list A) :
  (exists r, concatM f l = Ok r) <-> (forall x, In x l -> exists r, f x = Ok r).
Proof.
  induction l as [|x l IH]; cbn [concatM].
  - split; [intros _ x [] | intros _; now exists []].
  - split.
    + intros [r H] y [<-|Hy].
      * destruct (f x) as [r0|]; [now exists r0 | discriminate].
      * apply IH; [|exact Hy]. destruct (f x); [|discriminate]. cbn [bind] in H.
        destruct (concatM f l) as [rs|]; [now exists rs | discriminate].
    + intros H. destruct (H x (or_introl eq_refl)) as [r0 ->]. cbn [bind].
      destruct (proj2 IH (fun y Hy => H y (or_intror Hy))) as [rs ->].
      cbn [bind]. eauto.
Qed.

Lemma statCard_ok_iff (key value : list N) :
  (exists r, statCard [] (key, value) = Ok r) <-> safeStat value = true.
Proof.
  unfold statCard, safeStat.
  destruct (includes (lit "(") value && includes (lit "%)") value); cbn [negb orb].
  - destruct (firstMatch percentAt value); cbn [group1 bind isSome].
    + split; [reflexivity | eauto].
    + split; [intros [r H]; discriminate | discriminate].
  - cbn [bind]. split; [reflexivity | eauto].
Qed.

Lemma topItem_ok_iff (text : list N) :
  (exists r, topItem [] text = Ok r) <-> safeItem text = true.
Proof.
  unfold topItem, safeItem.
  destruct (map trim (split emdash text)) as [|name [|stats [|x l]]];
    try (split; [reflexivity | eauto]).
  destruct (includes (lit "](") name); cbn [negb orb].
  - destruct (firstMatch bracketAt name); cbn [group1 bind isSome andb].
    + destruct (firstMatch parenAt name); cbn [group1 bind isSome].
      * split; [reflexivity | eauto].
      * split; [intros [r H]; discriminate | discriminate].
    + split; [intros [r H]; discriminate | discriminate].
  - cbn [bind]. split; [reflexivity | eauto].
Qed.

Lemma statsHtml_ok_iff (stats : list (list N * list N)) :
  (exists r, statsHtml stats = Ok r)
  <-> forallb (fun p => safeStat (snd p)) stats = true.
Proof.
  rewrite forallb_forall.
  assert (E : (exists r, statsHtml stats = Ok r)
              <-> (exists r, concatM (statCard []) stats = Ok r)).
  { unfold statsHtml. destruct stats as [|s stats].
    - split; intros _; now exists [].
    - destruct (concatM (statCard []) (s :: stats)); cbn [bind];
        split; intros [r H]; try discriminate; eauto. }
  rewrite E, concatM_ok_iff.
  split; intros H [k v] Hx; specialize (H (k, v) Hx); cbn [snd] in *;
    now apply (statCard_ok_iff k v).
Qed.

Lemma gridList_ok_iff (listItems : list (list N)) :
  (exists r, gridList listItems = Ok r) <-> forallb safeItem listItems = true.
Proof.
  rewrite forallb_forall.
  assert (E : (exists r, gridList listItems = Ok r)
              <-> (exists r, concatM (topItem []) listItems = Ok r)).
  { unfold gridList. destruct (concatM (topItem []) listItems); cbn [bind];
      split; intros [r H]; try discriminate; eauto. }
  rewrite E, concatM_ok_iff.
  split; intros H x Hx; specialize (H x Hx); now apply (topItem_ok_iff x).
Qed.

Lemma listHtml_ok_iff (listItems : list (list N)) :
  (exists r, listHtml listItems = Ok r)
  <-> negb (usesGrid listItems) || forallb safeItem listItems = true.
Proof.
  unfold listHtml. destruct listItems as [|t l].
  - split; [reflexivity | intros _; now exists []].
  - destruct (usesGrid (t :: l)); cbn [negb orb].
    + apply gridList_ok_iff.
    + split; [reflexivity|]. intros _.
      destruct (bulletList_ok (t :: l)) as [rs ->]. eauto.
Qed.

Lemma slideHTML_ok_iff (toLowerCase : list N -> list N) (slidesLength : nat)
    (slide : Slide) (index : nat) :
  (exists frag, slideHTML toLowerCase slidesLength slide index = Ok frag)
  <-> safeSlide slide = true.
Proof.
  rewrite slideHTML_grouped. unfold safeSlide.
  rewrite andb_true_iff, <- statsHtml_ok_iff, <- listHtml_ok_iff.
  destruct (statsHtml (statsOf (content slide))) as [st|]; cbn [bind].
  - destruct (listHtml (listItemsOf (content slide))) as [li|]; cbn [bind].
    + split; [intros _; split; eauto | intros _; eauto].
    + split; [intros [r H]; discriminate | intros [_ [r H]]; discriminate].
  - split; [intros [r H]; discriminate | intros [[r H] _]; discriminate].
Qed.

Lemma mapM_length {A B : Type} (f : A -> nat -> Res B) (l : list A) (start : nat)
    (ys : list B) :
  mapM f l start = Ok ys -> length ys = length l.
Proof.
  revert start ys. induction l as [|x l IH]; intros start ys; cbn [mapM].
  - now intros [= <-].
  - destruct (f x start); [|discriminate]. cbn [bind].
    destruct (mapM f l (S start)) as [ys'|] eqn:E; [|discriminate]. cbn [bind].
    intros [= <-]. cbn [length]. f_equal. exact (IH _ _ E).
Qed.

Lemma mapM_ok_iff {A B : Type} (f : A -> nat -> Res B) (P : A -> Prop)
    (l : list A) (start : nat) :
  (forall x i, (exists y, f x i = Ok y) <-> P x) ->
  ((exists ys, mapM f l start = Ok ys) <-> (forall x, In x l -> P x)).
Proof.
  intros Hf. revert start. induction l as [|x l IH]; intros start; cbn [mapM].
  - split; [intros _ x [] | intros _; now exists []].
  - split.
    + intros (ys & H) y [<-|Hy].
      * apply (Hf x start). destruct (f x start) as [y0|]; [eauto | discriminate].
      * apply (IH (S start)); [|exact Hy].
        destruct (f x start); [|discriminate]. cbn [bind] in H.
        destruct (mapM f l (S start)) as [ys'|]; [eauto | discriminate].
    + intros H. destruct (proj2 (Hf x start) (H x (or_introl eq_refl))) as [y ->].
      cbn [bind].
      destruct (proj2 (IH (S start)) (fun z Hz => H z (or_intror Hz))) as (ys & ->).
      cbn [bind]. eauto.
Qed.

Lemma generateHTML_ok_iff (toLowerCase : list N -> list N)
    (docHead docMid docTail : list N) (now : N) (slides : list Slide) :
  (exists html, generateHTML toLowerCase docHead docMid docTail now slides = Ok html)
  <-> forallb safeSlide slides = true.
Proof.
  rewrite forallb_forall.
  rewrite <- (mapM_ok_iff (slideHTML toLowerCase (length slides))
                (fun s => safeSlide s = true) slides 0
                (fun x i => slideHTML_ok_iff toLowerCase (length slides) x i)).
  unfold generateHTML, slideFragments.
  destruct (mapM (slideHTML toLowerCase (length slides)) slides 0); cbn [bind];
    split; intros [r H]; try discriminate; eauto.
Qed.

(** X17.  [generateHTML] returns a document exactly when every slide is
    safe: each stat value that holds an opening parenthesis and a percent sign
    before a closing one holds a percentage in parentheses, and, where the
    list items use the grid, each item with two parts whose name holds [](]
    has a bracketed text and a parenthesised target in its name.  In every
    other case it throws.  When it returns, there is one fragment per
    slide. *)
Theorem rendering_succeeds_iff (toLowerCase : list N -> list N)
    (docHead docMid docTail : list N) (now : N) (slides : list Slide) :
  ((exists html,
      generateHTML toLowerCase docHead docMid docTail now slides = Ok html)
   <-> forallb safeSlide slides = true)
  /\ (forall frags, slideFragments toLowerCase slides = Ok frags ->
      length frags = length slides).
Proof.
  split; [apply generateHTML_ok_iff|].
  intros frags H. exact (mapM_length _ _ _ _ H).
Qed.

Lemma rendering_succeeds_iff_witness :
  exists html,
    generateHTML asciiLower [] [] [] 0
      (parseMarkdown (lit "rate: 92.5 (92.5%)")) = Ok html.
Proof.
  apply (proj1 (rendering_succeeds_iff asciiLower [] [] [] 0
                  (parseMarkdown (lit "rate: 92.5 (92.5%)")))).
  reflexivity.
Defined.

(** ** Parsing and rendering together *)

Lemma skipn_subset (n : nat) (s : list N) (x : N) : In x (skipn n s) -> In x s.
Proof.
  intros H. rewrite <- (firstn_skipn n s). apply in_or_app. now right.
Qed.

Lemma includes_in (p s : list N) (x : N) :
  includes p s = true -> In x p -> In x s.
Proof.
  induction s as [|c s IH]; cbn [includes]; intros H Hx.
  - rewrite orb_false_r in H. destruct (startsWith_prefix _ _ H) as [r E].
    symmetry in E. apply app_eq_nil in E. destruct E as [-> _]. contradiction.
  - apply orb_true_iff in H. destruct H as [H|H].
    + destruct (startsWith_prefix _ _ H) as [r ->]. apply in_or_app. now left.
    + right. now apply IH.
Qed.

Lemma statOf_value_chars (line : list N) (b : Block) (P : N -> Prop) :
  (forall x, In x line -> P x) -> statOf false line = Some b -> valueChars P b.
Proof.
  intros HP H.
  assert (Hb : exists k v, b = Stat k v).
  { unfold statOf in H.
    repeat match type of H with
           | (if ?c then _ else _) = _ => destruct c; [|discriminate]
           end.
    injection H as <-. eauto. }
  destruct Hb as (k & v & ->). apply statOf_iff in H.
  destruct H as (a & c & [-> _] & _ & _ & -> & _).
  cbn [valueChars]. intros x Hx. apply HP, in_or_app. right.
  apply in_or_app. right. now apply trim_subset.
Qed.

Lemma valueChars_push (P : N -> Prop) (cur : option Slide) (b : Block) :
  (forall s, cur = Some s -> Forall (valueChars P) (content s)) -> valueChars P b ->
  forall s, pushBlock cur b = Some s -> Forall (valueChars P) (content s).
Proof.
  intros Hcur Hb s. unfold pushBlock. intros [= <-]. cbn [content].
  apply Forall_app. split; [|now constructor].
  destruct cur as [s0|]; [now apply Hcur | constructor].
Qed.

Lemma valueChars_pushSlide (P : N -> Prop) (sl : list Slide) (cur : option Slide) :
  Forall (fun s => Forall (valueChars P) (content s)) sl ->
  (forall s, cur = Some s -> Forall (valueChars P) (content s)) ->
  Forall (fun s => Forall (valueChars P) (content s)) (pushSlide sl cur).
Proof.
  intros Hsl Hcur. unfold pushSlide. destruct cur as [s|]; [|exact Hsl].
  destruct (0 <? length (content s))%nat; [|exact Hsl].
  apply Forall_app. split; [exact Hsl|]. constructor; [now apply Hcur | constructor].
Qed.

Lemma step_valueChars (P : N -> Prop) (st : PState) (line : list N) :
  (forall x, In x line -> P x) ->
  Forall (fun s => Forall (valueChars P) (content s)) (slides st) ->
  (forall s, currentSlide st = Some s -> Forall (valueChars P) (content s)) ->
  Forall (fun s => Forall (valueChars P) (content s)) (slides (step st line))
  /\ (forall s, currentSlide (step st line) = Some s ->
      Forall (valueChars P) (content s)).
Proof.
  intros HP Hsl Hcur.
  assert (Hadd : forall b, valueChars P b ->
            Forall (fun s => Forall (valueChars P) (content s)) (slides (addBlock st b))
            /\ (forall s, currentSlide (addBlock st b) = Some s ->
                Forall (valueChars P) (content s))).
  { intros b Hb. split; [exact Hsl | now apply valueChars_push]. }
  assert (Hhead : forall new, content new = [] ->
            let st' := setSlides st (pushSlide (slides st) (currentSlide st)) (Some new) in
            Forall (fun s => Forall (valueChars P) (content s)) (slides st')
            /\ (forall s, currentSlide st' = Some s -> Forall (valueChars P) (content s))).
  { intros new Hn. split; [now apply valueChars_pushSlide|].
    intros s [= <-]. rewrite Hn. constructor. }
  unfold step.
  destruct (startsWith fence line).
  { destruct (inCodeBlock st); (split; [exact Hsl|]); [|exact Hcur].
    apply valueChars_push; [exact Hcur | exact I]. }
  destruct (inCodeBlock st) eqn:Hin; [now split|].
  destruct (startsWith (lit "slides:") line || startsWith (lit "Also share with") line);
    [now split|].
  destruct (eqs (trim line) (lit "<hr>") || eqs (trim line) (lit "---")).
  { split; [now apply valueChars_pushSlide | discriminate]. }
  destruct (matchHeader (lit "#") line); [now apply Hhead|].
  destruct (matchHeader (lit "##") line); [now apply Hhead|].
  destruct (matchHeader (lit "###") line); [apply Hadd; exact I|].
  destruct (startsWith (lit "- ") line).
  { apply Hadd. intros x Hx. apply HP.
    apply trim_subset in Hx. unfold substringFrom in Hx. now apply skipn_subset in Hx. }
  destruct (statOf false line) eqn:Es;
    [apply Hadd; exact (statOf_value_chars _ _ P HP Es)|].
  destruct (matchImage line) as [[alt src]|]; [apply Hadd; exact I|].
  destruct (truthy (trim line)); [apply Hadd; exact I | now split].
Qed.

Lemma run_valueChars (P : N -> Prop) (ls : list (list N)) (st : PState) :
  (forall l x, In l ls -> In x l -> P x) ->
  Forall (fun s => Forall (valueChars P) (content s)) (slides st) ->
  (forall s, currentSlide st = Some s -> Forall (valueChars P) (content s)) ->
  Forall (fun s => Forall (valueChars P) (content s)) (finish (run ls st)).
Proof.
  revert st. induction ls as [|l ls IH]; intros st HP H1 H2.
  - cbn. unfold finish. now apply valueChars_pushSlide.
  - cbn [run fold_left]. change (fold_left step ls ?s) with (run ls s).
    destruct (step_valueChars P st l (fun x Hx => HP l x (or_introl eq_refl) Hx) H1 H2)
      as [A B].
    apply IH; try assumption. intros l' x Hl. apply HP. now right.
Qed.

Lemma parsed_value_chars (P : N -> Prop) (doc : list N) :
  (forall x, In x doc -> P x) ->
  Forall (fun s => Forall (valueChars P) (content s)) (parseMarkdown doc).
Proof.
  intros HP. unfold parseMarkdown, parseLines. apply run_valueChars.
  - intros l x Hl Hx. apply HP. exact (split_chars _ _ _ _ Hl Hx).
  - constructor.
  - discriminate.
Qed.

Lemma safeStat_no_paren (v : list N) : ~ In 40%N v -> safeStat v = true.
Proof.
  intros H. unfold safeStat.
  replace (includes (lit "(") v) with false; [reflexivity|].
  symmetry. change (lit "(") with [40%N].
  destruct (includes [40%N] v) eqn:E; [|reflexivity].
  apply includes_char in E. contradiction.
Qed.

Lemma safeItem_no_paren (t : list N) : ~ In 40%N t -> safeItem t = true.
Proof.
  intros H. unfold safeItem.
  destruct (map trim (split emdash t)) as [|name [|stats [|x l]]] eqn:E;
    try reflexivity.
  replace (includes (lit "](") name) with false; [reflexivity|].
  symmetry. destruct (includes (lit "](") name) eqn:Ei; [|reflexivity].
  exfalso. apply H.
  assert (Hn : In 40%N name) by (apply (includes_in _ _ _ Ei); right; now left).
  assert (Hm : In name (map trim (split emdash t))) by (rewrite E; now left).
  apply in_map_iff in Hm. destruct Hm as (part & <- & Hp).
  apply trim_subset in Hn. exact (split_chars _ _ _ _ Hp Hn).
Qed.

Lemma safeSlide_no_paren (s : Slide) :
  Forall (valueChars (fun x => x <> 40%N)) (content s) -> safeSlide s = true.
Proof.
  intros H. rewrite Forall_forall in H. unfold safeSlide. apply andb_true_iff. split.
  - apply forallb_forall. intros [k v] Hx. cbn [snd]. apply safeStat_no_paren.
    unfold statsOf in Hx. apply in_flat_map in Hx. destruct Hx as (b & Hb & Hx).
    destruct b; try contradiction. destruct Hx as [[= <- <-]|[]].
    intros Hin. exact (H _ Hb 40%N Hin eq_refl).
  - apply orb_true_iff. right. apply forallb_forall. intros t Hx.
    apply safeItem_no_paren.
    unfold listItemsOf in Hx. apply in_flat_map in Hx. destruct Hx as (b & Hb & Hx).
    destruct b; try contradiction. destruct Hx as [<-|[]].
    intros Hin. exact (H _ Hb 40%N Hin eq_refl).
Qed.

(** X18.  A document without any opening parenthesis always renders:
    parsing it and rendering the slides returns a document, whatever else the
    text holds. *)
Theorem document_without_paren_renders (toLowerCase : list N -> list N)
    (docHead docMid docTail : list N) (now : N) (doc : list N) :
  ~ In 40%N doc ->
  exists html,
    generateHTML toLowerCase docHead docMid docTail now (parseMarkdown doc) = Ok html.
Proof.
  intros H. apply generateHTML_ok_iff, forallb_forall. intros s Hs.
  apply safeSlide_no_paren.
  pose proof (parsed_value_chars (fun x => x <> 40%N) doc
                (fun x Hx E => H (eq_ind x (fun y => In y doc) Hx _ E))) as HF.
  rewrite Forall_forall in HF. exact (HF s Hs).
Qed.

Lemma document_without_paren_renders_witness :
  exists html,
    generateHTML asciiLower [] [] [] 0
      (parseMarkdown (lit "## Top" ++ [newline] ++ lit "- [npm] " ++ [emdash] ++ lit " 3,000"))
    = Ok html.
Proof.
  apply document_without_paren_renders.
  vm_compute. intros H. repeat (destruct H as [H|H]; [discriminate|]). exact H.
Defined.

(** ** More on the parser: blocks are never lost *)







(** ** More on generateSlides *)

(** X20.  Every call of [generateSlides] makes exactly one console call:
    when it returns [true], one call of [console.log] (with the count) and
    none of [console.error]; when it returns [false], one call of
    [console.error] (with the message and the error) and none of
    [console.log].  It returns [true] exactly when the source was read, the
    slides were rendered and the write succeeded. *)
Theorem one_report_per_run (toLowerCase : list N -> list N)
    (docHead docMid docTail : list N) (FS : Type)
    (readFileSync : FS -> list N -> Res (list N))
    (writeFileSync : FS -> list N -> list N -> FS * Res unit) (w : World FS) :
  let r := generateSlides toLowerCase docHead docMid docTail
             readFileSync writeFileSync w in
  (if fst r
   then length (stdout (snd r)) = S (length (stdout w)) /\ stderr (snd r) = stderr w
   else length (stderr (snd r)) = S (length (stderr w)) /\ stdout (snd r) = stdout w)
  /\ (fst r = true <->
      exists markdown html f,
        readFileSync (fs w) MARKDOWN_FILE = Ok markdown
        /\ generateHTML toLowerCase docHead docMid docTail (clock w)
             (parseMarkdown markdown) = Ok html
        /\ writeFileSync (fs w) OUTPUT_FILE html = (f, Ok tt)).
Proof.
  cbv zeta. unfold generateSlides.
  destruct (readFileSync (fs w) MARKDOWN_FILE) as [markdown|e] eqn:Er.
  2: { cbn [fst snd stdout stderr consoleLog consoleError setFs failed].
    rewrite length_app. cbn [length]. split; [split; [lia | reflexivity]|].
       split; [discriminate | intros (m & h & f & H & _); discriminate]. }
  destruct (generateHTML toLowerCase docHead docMid docTail (clock w)
              (parseMarkdown markdown)) as [html|e] eqn:Eg.
  2: { cbn [fst snd stdout stderr consoleLog consoleError setFs failed].
    rewrite length_app. cbn [length]. split; [split; [lia | reflexivity]|].
       split; [discriminate|]. intros (m & h & f & H1 & H2 & _).
       injection H1 as <-. rewrite Eg in H2. discriminate. }
  destruct (writeFileSync (fs w) OUTPUT_FILE html) as [f [[]|e]] eqn:Ew.
  - cbn [fst snd stdout stderr consoleLog consoleError setFs failed].
    rewrite length_app. cbn [length]. split; [split; [lia | reflexivity]|].
    split; [intros _ | reflexivity]. now exists markdown, html, f.
  - cbn [fst snd stdout stderr consoleLog consoleError setFs failed].
    rewrite length_app. cbn [length]. split; [split; [lia | reflexivity]|].
    split; [discriminate|]. intros (m & h & f' & H1 & H2 & H3).
    injection H1 as <-. rewrite Eg in H2. injection H2 as <-.
    rewrite Ew in H3. discriminate.
Qed.

(** ** The renderer against the elements of the blocks *)

Lemma percentAt_truthy (s p : list N) : percentAt s = Some p -> truthy p = true.
Proof.
  unfold percentAt. destruct (startsWith (lit "(") s); [|discriminate].
  match goal with
  | |- (if truthy ?n && _ then _ else _) = _ -> _ => destruct n; cbn [truthy andb]
  end; [discriminate|].
  match goal with
  | |- (if ?c then _ else _) = _ -> _ => destruct c
  end; [|discriminate].
  now intros [= <-].
Qed.

Lemma parenAt_truthy (s g : list N) : parenAt s = Some g -> truthy g = true.
Proof.
  unfold parenAt. destruct (startsWith (lit "(") s); [|discriminate].
  match goal with
  | |- (if truthy ?n && _ then _ else _) = _ -> _ => destruct (truthy n) eqn:E
  end; cbn [andb]; [|discriminate].
  match goal with
  | |- (if ?c then _ else _) = _ -> _ => destruct c
  end; [|discriminate].
  now intros [= <-].
Qed.

Lemma statCard_element (stat : list N * list N) :
  statCard [] stat = statCardOf stat.
Proof.
  unfold statCard, statCardOf. destruct stat as [key value].
  destruct (includes (lit "(") value && includes (lit "%)") value).
  - destruct (firstMatch percentAt value) as [p|] eqn:E; cbn [group1 bind];
      [|reflexivity].
    destruct (firstMatch_some _ _ _ E) as (a & b & _ & Hb).
    cbn [truthyOpt]. rewrite (percentAt_truthy _ _ Hb).
    unfold statCardHtml. f_equal. assoc_app.
  - cbn [bind truthyOpt]. unfold statCardHtml. f_equal. assoc_app.
Qed.

Lemma topItem_element (text : list N) : topItem [] text = rankedEntryOf text.
Proof.
  unfold topItem, rankedEntryOf.
  destruct (map trim (split emdash text)) as [|name [|stats [|x l]]]; try reflexivity.
  destruct (includes (lit "](") name).
  - destruct (firstMatch bracketAt name) as [d|]; cbn [group1 bind]; [|reflexivity].
    destruct (firstMatch parenAt name) as [h|] eqn:E; cbn [group1 bind]; [|reflexivity].
    destruct (firstMatch_some _ _ _ E) as (a & b & _ & Hb).
    cbn [truthyOpt]. rewrite (parenAt_truthy _ _ Hb).
    unfold topItemHtml, linkName, emphasizeNumbers. f_equal. assoc_app.
  - cbn [bind truthyOpt]. unfold topItemHtml, plainName, emphasizeNumbers.
    f_equal. assoc_app.
Qed.

Lemma plainItem_element (text : list N) : plainItem [] text = Ok (bulletItemOf text).
Proof. reflexivity. Qed.

Lemma promptLine_element (line : list N) : promptLine line = promptLineOf line.
Proof. unfold promptLine, promptLineOf, escapedText. now rewrite escapeHtml_chars. Qed.

Lemma codeTextOf_element (language text : list N) :
  codeTextOf language text = embeddedCode language text.
Proof.
  unfold embeddedCode, escapedText.
  destruct (eqs language (lit "terminal")) eqn:E.
  - apply eqs_eq in E. subst language. rewrite terminal_lines. f_equal.
    apply map_ext. exact promptLine_element.
  - unfold codeTextOf. rewrite E. apply escapeHtml_chars.
Qed.

Lemma codeBlock_element (html : list N) (item : list N * list N) :
  codeBlock html item = html ++ codeElement item.
Proof.
  destruct item as [language text]. unfold codeBlock, codeElement.
  cbn [fst snd]. now rewrite codeTextOf_element.
Qed.

Lemma concatM_ext {A : Type} (f g : A -> Res (list N)) (l : list A) :
  (forall x, f x = g x) -> concatM f l = concatM g l.
Proof.
  intros H. induction l as [|x l IH]; [reflexivity|].
  cbn [concatM]. now rewrite H, IH.
Qed.

Lemma concatM_pure {A : Type} (g : A -> list N) (l : list A) :
  concatM (fun x => Ok (g x)) l = Ok (concat (map g l)).
Proof.
  induction l as [|x l IH]; [reflexivity|]. cbn [concatM map concat bind].
  now rewrite IH.
Qed.

Lemma statGrid_eq (stats : list (list N * list N)) : statGrid stats = statsHtml stats.
Proof.
  unfold statGrid, statsHtml. destruct stats; [reflexivity|].
  now rewrite (concatM_ext _ _ _ statCard_element).
Qed.

Lemma listLayout_eq (listItems : list (list N)) : listLayout listItems = listHtml listItems.
Proof.
  unfold listLayout, listHtml, rankedGrid, gridList, bulletedList, bulletList.
  destruct listItems as [|t l]; [reflexivity|].
  destruct (usesGrid (t :: l)).
  - now rewrite (concatM_ext _ _ _ topItem_element).
  - rewrite (concatM_ext _ _ _ plainItem_element), concatM_pure. reflexivity.
Qed.

Lemma slideHTML_elements (toLowerCase : list N -> list N) (slidesLength : nat)
    (slide : Slide) (index : nat) :
  slideHTML toLowerCase slidesLength slide index =
    st <- statGrid (statsOf (content slide)) ;;
    li <- listLayout (listItemsOf (content slide)) ;;
    Ok (slideOpen toLowerCase (type slide) (title slide)
                  (textsOf (content slide)) (codeBlocksOf (content slide))
        ++ concat (map subtitleHtml (subtitlesOf (content slide)))
        ++ st ++ li
        ++ concat (map textHtml (textsOf (content slide)))
        ++ concat (map codeElement (codeBlocksOf (content slide)))
        ++ concat (map imageHtml (imagesOf (content slide)))
        ++ slideClose slidesLength index).
Proof.
  rewrite slideHTML_grouped, statGrid_eq, listLayout_eq.
  now rewrite (map_ext codeHtml codeElement (fun item => codeBlock_element [] item)).
Qed.

Lemma occursIn_refl (p : list N) : occursIn p p.
Proof. exists [], []. now rewrite app_nil_r. Qed.

Lemma concatM_occurs {A : Type} (f : A -> Res (list N)) (l : list A)
    (rs : list N) (x : A) :
  concatM f l = Ok rs -> In x l -> exists r, f x = Ok r /\ occursIn r rs.
Proof.
  revert rs. induction l as [|y l IH]; intros rs H Hx; [contradiction|].
  cbn [concatM] in H. destruct (f y) as [r|] eqn:Ey; [|discriminate].
  cbn [bind] in H. destruct (concatM f l) as [rs'|]; [|discriminate].
  cbn [bind] in H. apply Ok_inj in H. subst rs. destruct Hx as [->|Hx].
  - exists r. split; [exact Ey|]. apply occursIn_app_l, occursIn_refl.
  - destruct (IH rs' eq_refl Hx) as (r' & Hr & Ho).
    exists r'. split; [exact Hr | now apply occursIn_app_r].
Qed.

Lemma group_in (c : list Block) :
  (forall k v, In (Stat k v) c -> In (k, v) (statsOf c))
  /\ (forall t, In (ListItem t) c -> In t (listItemsOf c))
  /\ (forall l t, In (Code l t) c -> In (l, t) (codeBlocksOf c))
  /\ (forall a s, In (Image a s) c -> In (a, s) (imagesOf c)).
Proof.
  unfold statsOf, listItemsOf, codeBlocksOf, imagesOf.
  repeat split; intros; apply in_flat_map; eexists; (split; [eassumption | now left]).
Qed.

Lemma statGrid_occurs (stats : list (list N * list N)) (st : list N)
    (k v : list N) :
  statGrid stats = Ok st -> In (k, v) stats ->
  exists card, statCardOf (k, v) = Ok card /\ occursIn card st.
Proof.
  unfold statGrid. destruct stats as [|s0 stats]; [intros _ []|].
  destruct (concatM statCardOf (s0 :: stats)) as [rs|] eqn:E; cbn [bind];
    [|discriminate].
  intros H Hx. apply Ok_inj in H. subst st.
  destruct (concatM_occurs _ _ _ _ E Hx) as (card & Hc & Ho).
  exists card. split; [exact Hc|]. do 2 apply occursIn_app_r. now apply occursIn_app_l.
Qed.

Lemma listLayout_occurs (listItems : list (list N)) (li t : list N) :
  listLayout listItems = Ok li -> In t listItems ->
  if usesGrid listItems
  then exists entry, rankedEntryOf t = Ok entry /\ occursIn entry li
  else occursIn (bulletItemOf t) li.
Proof.
  unfold listLayout. destruct listItems as [|t0 l]; [intros _ []|].
  destruct (usesGrid (t0 :: l)).
  - unfold rankedGrid.
    destruct (concatM rankedEntryOf (t0 :: l)) as [rs|] eqn:E; cbn [bind];
      [|discriminate].
    intros H Hx. apply Ok_inj in H. subst li.
    destruct (concatM_occurs _ _ _ _ E Hx) as (entry & He & Ho).
    exists entry. split; [exact He|].
    do 2 apply occursIn_app_r. now apply occursIn_app_l.
  - intros H Hx. apply Ok_inj in H. subst li. unfold bulletedList.
    do 2 apply occursIn_app_r. apply occursIn_app_l.
    apply (occursIn_concat _ (bulletItemOf t)); [now apply in_map | apply occursIn_refl].
Qed.

Lemma slide_shows_blocks (toLowerCase : list N -> list N) (slidesLength : nat)
    (slide : Slide) (index : nat) (frag : list N) (b : Block) :
  slideHTML toLowerCase slidesLength slide index = Ok frag ->
  In b (content slide) ->
  showsBlock (listItemsOf (content slide)) frag b.
Proof.
  rewrite slideHTML_elements.
  destruct (statGrid (statsOf (content slide))) as [st|] eqn:Es; cbn [bind];
    [|discriminate].
  destruct (listLayout (listItemsOf (content slide))) as [li|] eqn:El; cbn [bind];
    [|discriminate].
  intros E Hb. apply Ok_inj in E. subst frag.
  destruct (group_in (content slide)) as (G1 & G2 & G3 & G4).
  destruct b as [t|t|k v|a s|l t|t]; cbn [showsBlock].
  - apply occursIn_app_r, occursIn_app_l.
    apply (occursIn_concat _ (subtitleHtml t));
      [apply in_map; now apply subtitles_in | apply occursIn_refl].
  - pose proof (listLayout_occurs _ _ t El (G2 t Hb)) as H.
    destruct (usesGrid (listItemsOf (content slide))).
    + destruct H as (entry & He & Ho). exists entry. split; [exact He|].
      do 3 apply occursIn_app_r. now apply occursIn_app_l.
    + do 3 apply occursIn_app_r. now apply occursIn_app_l.
  - destruct (statGrid_occurs _ _ k v Es (G1 k v Hb)) as (card & Hc & Ho).
    exists card. split; [exact Hc|].
    do 2 apply occursIn_app_r. now apply occursIn_app_l.
  - do 6 apply occursIn_app_r. apply occursIn_app_l.
    apply (occursIn_concat _ (imageHtml (a, s)));
      [apply in_map; now apply G4 | apply occursIn_refl].
  - do 5 apply occursIn_app_r. apply occursIn_app_l.
    apply (occursIn_concat _ (codeElement (l, t)));
      [apply in_map; now apply G3 | apply occursIn_refl].
  - do 4 apply occursIn_app_r. apply occursIn_app_l.
    apply (occursIn_concat _ (textHtml t));
      [apply in_map; now apply texts_in | apply occursIn_refl].
Qed.

(** C5, as the renderer has it.  The fragment of a slide is its opening,
    then the subtitles, the stat grid, the list layout, the text paragraphs,
    the code blocks and the images, in this order, then its end; each group
    holds the elements of the blocks of its category in the order of
    insertion (the group is the [filter] of the content), so two contents
    with the same blocks per category render the same.  Every subtitle, stat,
    text, code block and image of the content is shown, and every list item
    in the plain list; in the grid an item is shown as its entry, which is
    empty unless the item has exactly one em-dash. *)
Theorem blocks_grouped_by_category (toLowerCase : list N -> list N) :
  (forall (slidesLength : nat) (slide : Slide) (index : nat),
     let c := content slide in
     slideHTML toLowerCase slidesLength slide index =
       st <- statGrid (statsOf c) ;;
       li <- listLayout (listItemsOf c) ;;
       Ok (slideOpen toLowerCase (type slide) (title slide) (textsOf c) (codeBlocksOf c)
           ++ concat (map subtitleHtml (subtitlesOf c))
           ++ st ++ li
           ++ concat (map textHtml (textsOf c))
           ++ concat (map codeElement (codeBlocksOf c))
           ++ concat (map imageHtml (imagesOf c))
           ++ slideClose slidesLength index))
  /\ (forall c : list Block,
        map Subtitle (subtitlesOf c) = filter (sameCategory CSubtitle) c
        /\ map (fun p => Stat (fst p) (snd p)) (statsOf c) = filter (sameCategory CStat) c
        /\ map ListItem (listItemsOf c) = filter (sameCategory CListItem) c
        /\ map Text (textsOf c) = filter (sameCategory CText) c
        /\ map (fun p => Code (fst p) (snd p)) (codeBlocksOf c)
           = filter (sameCategory CCode) c
        /\ map (fun p => Image (fst p) (snd p)) (imagesOf c)
           = filter (sameCategory CImage) c)
  /\ (forall (ty : SlideType) (ttl : option (list N)) (c1 c2 : list Block)
             (slidesLength index : nat),
        (forall k, filter (sameCategory k) c1 = filter (sameCategory k) c2) ->
        slideHTML toLowerCase slidesLength (mkSlide ty ttl c1) index
        = slideHTML toLowerCase slidesLength (mkSlide ty ttl c2) index)
  /\ (forall (slidesLength : nat) (slide : Slide) (index : nat) (frag : list N)
             (b : Block),
        slideHTML toLowerCase slidesLength slide index = Ok frag ->
        In b (content slide) ->
        showsBlock (listItemsOf (content slide)) frag b)
  /\ (forall text : list N,
        countChar emdash text <> 1%nat -> rankedEntryOf text = Ok []).
Proof.
  split; [|split; [|split; [|split]]].
  - intros. apply slideHTML_elements.
  - apply groups_are_filters.
  - intros ty ttl c1 c2 n i H.
    rewrite !slideHTML_grouped. cbn [content type title].
    destruct (same_groups c1 c2 H) as (-> & -> & -> & -> & -> & ->). reflexivity.
  - intros. now apply (slide_shows_blocks toLowerCase slidesLength slide index).
  - intros text H. rewrite <- topItem_element. now apply topItem_omits.
Qed.

Lemma blocks_grouped_by_category_witness :
  slideHTML asciiLower 1 (mkSlide TSection (Some (lit "T"))
                            [Text (lit "p"); Subtitle (lit "s"); Image (lit "a") (lit "i.png")]) 0
  = slideHTML asciiLower 1 (mkSlide TSection (Some (lit "T"))
                              [Image (lit "a") (lit "i.png"); Subtitle (lit "s"); Text (lit "p")]) 0.
Proof.
  apply (proj1 (proj2 (proj2 (blocks_grouped_by_category asciiLower)))).
  intros []; reflexivity.
Defined.

(** C5 as worded fails: not every content block is emitted.  On a slide
    whose list items use the grid, an item without em-dash is left out of
    the fragment. *)
Lemma grid_leaves_item_out :
  let slide := mkSlide TSection (Some (lit "Top"))
                 [ListItem (lit "npm " ++ [emdash] ++ lit " 3,000 packages");
                  ListItem (lit "and the rest")] in
  let frag := match slideHTML asciiLower 1 slide 0 with
              | Ok f => f
              | Throw _ => []
              end in
  slideHTML asciiLower 1 slide 0 = Ok frag
  /\ includes (lit "3,000") frag = true
  /\ includes (lit "and the rest") frag = false.
Proof.
  cbv zeta. repeat split; vm_compute; reflexivity.
Qed.

(** ** Code blocks: what is escaped and what is not *)






